(** * Response extraction in [backend/controllers/aiController.js]

    The controller asks a text-generation service for a JSON object and
    recovers it from the answer in two steps: [JSON.parse] on the whole
    answer, and, when that throws, [JSON.parse] on what the pattern
    [/{[\s\S]*}/] matches.  This development embeds the two built-ins the
    controller relies on ([JSON.parse] and [String.prototype.match]), the
    recovery blocks of [parseInvoiceFromText] and [getDashboardSummary]
    together with the [try]/[catch] that surrounds them, and proves the
    properties the specification states about them. *)

From Stdlib Require Import NArith ZArith Ascii String Lia.
From stdpp Require Import base option list gmap.

Local Open Scope N_scope.

(** ** Text

    An ECMAScript string is a sequence of UTF-16 code units; a text is a
    [list N], one number per code unit. *)

(** Literals.  [lit] turns a Rocq string of ASCII characters into the
    code units it denotes; an apostrophe in the literal stands for the
    quotation mark U+0022, every other character for itself. *)

Definition lit_unit (a : ascii) : N :=
  let n := N_of_ascii a in if n =? 39 then 34 else n.

Fixpoint lit (s : string) : list N :=
  match s with
  | EmptyString => []
  | String a s' => lit_unit a :: lit s'
  end.

Module Ch.
Definition tab : N := 9.
Definition lf : N := 10.
Definition cr : N := 13.
Definition space : N := 32.
Definition quote : N := 34.      (* quotation mark *)
Definition plus : N := 43.
Definition comma : N := 44.
Definition minus : N := 45.
Definition dot : N := 46.
Definition slash : N := 47.
Definition zero : N := 48.
Definition colon : N := 58.
Definition lbracket : N := 91.   (* [ *)
Definition backslash : N := 92.
Definition rbracket : N := 93.   (* ] *)
Definition lbrace : N := 123.    (* { *)
Definition rbrace : N := 125.    (* } *)
End Ch.

(** ** JSON values

    What [JSON.parse] returns.  An object is a finite map from property
    names to values (a later duplicate of a name replaces the earlier
    one); the order in which properties are enumerated is not part of the
    model.  A number is kept as the decimal [m * 10^e] its literal
    denotes, with [m] free of trailing zeros; the rounding to a binary64
    and the sign of zero are not modelled. *)

#[warnings="-register-all"]
Inductive json : Type :=
| JNull
| JBool (b : bool)
| JNumber (m e : Z)
| JString (s : list N)
| JArray (xs : list json)
| JObject (props : gmap (list N) json).

Definition is_object (v : json) : bool :=
  match v with JObject _ => true | _ => false end.

(** ** [JSON.parse]

    A recursive-descent reader of the JSON grammar of ECMA-404, which is
    the grammar [JSON.parse] accepts: the four white-space characters,
    the literals [null], [true] and [false], numbers without leading
    zeros or a leading plus sign, strings in quotation marks with the
    nine escapes, arrays and objects without trailing commas. *)

Module JSON.

Definition is_ws (c : N) : bool :=
  (c =? Ch.tab) || (c =? Ch.lf) || (c =? Ch.cr) || (c =? Ch.space).

Fixpoint skip_ws (s : list N) : list N :=
  match s with
  | c :: s' => if is_ws c then skip_ws s' else s
  | [] => []
  end.

Definition is_digit (c : N) : bool := (48 <=? c) && (c <=? 57).

Definition hex_val (c : N) : option N :=
  if is_digit c then Some (c - 48)
  else if (97 <=? c) && (c <=? 102) then Some (c - 87)
  else if (65 <=? c) && (c <=? 70) then Some (c - 55)
  else None.

(** [\uXXXX]: the code unit with the four hexadecimal digits. *)
Definition hex4 (a b c d : N) : option N :=
  match hex_val a, hex_val b, hex_val c, hex_val d with
  | Some x, Some y, Some z, Some w => Some (((x * 16 + y) * 16 + z) * 16 + w)
  | _, _, _, _ => None
  end.

(** The single-character escapes: quotation mark, reverse solidus,
    solidus, b, f, n, r, t. *)
Definition escape (c : N) : option N :=
  if c =? Ch.quote then Some Ch.quote
  else if c =? Ch.backslash then Some Ch.backslash
  else if c =? Ch.slash then Some Ch.slash
  else if c =? 98 then Some 8
  else if c =? 102 then Some 12
  else if c =? 110 then Some Ch.lf
  else if c =? 114 then Some Ch.cr
  else if c =? 116 then Some Ch.tab
  else None.

(** The characters of a string after its opening quotation mark, up to
    and including the closing one.  Control characters below U+0020 are
    not allowed unescaped. *)
Fixpoint string_body (s : list N) : option (list N * list N) :=
  match s with
  | [] => None
  | c :: rest =>
    if c =? Ch.quote then Some ([], rest)
    else if c =? Ch.backslash then
      match rest with
      | [] => None
      | e :: rest1 =>
        if e =? 117 then
          match rest1 with
          | a :: b :: c' :: d :: rest2 =>
            match hex4 a b c' d, string_body rest2 with
            | Some u, Some (str, out) => Some (u :: str, out)
            | _, _ => None
            end
          | _ => None
          end
        else
          match escape e, string_body rest1 with
          | Some u, Some (str, out) => Some (u :: str, out)
          | _, _ => None
          end
      end
    else if c <? 32 then None
    else
      match string_body rest with
      | Some (str, out) => Some (c :: str, out)
      | None => None
      end
  end.

(** The longest run of decimal digits at the head of [s], as digit
    values, and what follows it. *)
Fixpoint digits (s : list N) : list N * list N :=
  match s with
  | c :: s' =>
    if is_digit c then let '(ds, out) := digits s' in ((c - 48) :: ds, out)
    else ([], s)
  | [] => ([], [])
  end.

Definition digits_value (ds : list N) : N :=
  fold_left (fun acc d => acc * 10 + d) ds 0.

(** Trailing zeros of the mantissa move into the exponent. *)
Fixpoint strip_zeros (rev_ds : list N) (e : Z) : list N * Z :=
  match rev_ds with
  | d :: r => if d =? 0 then strip_zeros r (e + 1)%Z else (rev_ds, e)
  | [] => ([], e)
  end.

Definition decimal (neg : bool) (int_ds frac_ds : list N) (exp : Z) : json :=
  let '(rev_ds, e) :=
    strip_zeros (rev (int_ds ++ frac_ds)) (exp - Z.of_nat (length frac_ds))%Z in
  let m := Z.of_N (digits_value (rev rev_ds)) in
  if (m =? 0)%Z then JNumber 0 0
  else JNumber (if neg then - m else m)%Z e.

(** integer part: a single zero, or a digit from 1 to 9 and more digits *)
Definition int_part (s : list N) : option (list N * list N) :=
  match s with
  | c :: s' =>
    if c =? Ch.zero then Some ([0], s')
    else if is_digit c then Some (digits s)
    else None
  | [] => None
  end.

(** fraction: nothing, or a dot and at least one digit *)
Definition frac_part (s : list N) : option (list N * list N) :=
  match s with
  | c :: s' =>
    if c =? Ch.dot then
      match digits s' with
      | ([], _) => None
      | (ds, out) => Some (ds, out)
      end
    else Some ([], s)
  | [] => Some ([], [])
  end.

(** exponent: nothing, or e or E, an optional sign, at least one digit *)
Definition exp_part (s : list N) : option (Z * list N) :=
  match s with
  | c :: s' =>
    if (c =? 101) || (c =? 69) then
      let '(neg, s1) :=
        match s' with
        | g :: s2 =>
          if g =? Ch.minus then (true, s2)
          else if g =? Ch.plus then (false, s2)
          else (false, s')
        | [] => (false, [])
        end in
      match digits s1 with
      | ([], _) => None
      | (ds, out) =>
        let v := Z.of_N (digits_value ds) in
        Some (if neg then (- v)%Z else v, out)
      end
    else Some (0%Z, s)
  | [] => Some (0%Z, [])
  end.

Definition number (s : list N) : option (json * list N) :=
  let '(neg, s0) :=
    match s with
    | c :: s' => if c =? Ch.minus then (true, s') else (false, s)
    | [] => (false, [])
    end in
  match int_part s0 with
  | Some (ids, s1) =>
    match frac_part s1 with
    | Some (fds, s2) =>
      match exp_part s2 with
      | Some (ex, s3) => Some (decimal neg ids fds ex, s3)
      | None => None
      end
    | None => None
    end
  | None => None
  end.

(** [s] starts with the word [w]: what follows the word. *)
Fixpoint word (w s : list N) : option (list N) :=
  match w, s with
  | [], _ => Some s
  | a :: w', c :: s' => if a =? c then word w' s' else None
  | _ :: _, [] => None
  end.

Definition literal (s : list N) : option (json * list N) :=
  match word (lit "null") s with
  | Some out => Some (JNull, out)
  | None =>
    match word (lit "true") s with
    | Some out => Some (JBool true, out)
    | None =>
      match word (lit "false") s with
      | Some out => Some (JBool false, out)
      | None => None
      end
    end
  end.

(** The outcome of reading one grammar element: the value and the
    unread rest, a syntax error, or the recursion bound reached
    ([value_fuel] below shows that the bound [JSON.parse] starts with is
    never reached). *)
Inductive reading : Type :=
| Read (v : json) (rest : list N)
| Bad
| Fuel.

Definition of_option (o : option (json * list N)) : reading :=
  match o with
  | Some (v, rest) => Read v rest
  | None => Bad
  end.

(** [value] reads white space and one value; [elements] reads the
    elements of an array after its opening bracket, [members] the members
    of an object after its opening brace, when the array or object is not
    empty. *)
Fixpoint value (fuel : nat) (s : list N) : reading :=
  match fuel with
  | O => Fuel
  | S fuel' =>
    match skip_ws s with
    | [] => Bad
    | c :: r =>
      if c =? Ch.lbrace then
        match skip_ws r with
        | [] => Bad
        | c' :: r' =>
          if c' =? Ch.rbrace then Read (JObject ∅) r'
          else members fuel' (c' :: r') ∅
        end
      else if c =? Ch.lbracket then
        match skip_ws r with
        | [] => Bad
        | c' :: r' =>
          if c' =? Ch.rbracket then Read (JArray []) r'
          else elements fuel' (c' :: r') []
        end
      else if c =? Ch.quote then
        match string_body r with
        | Some (str, out) => Read (JString str) out
        | None => Bad
        end
      else if (c =? Ch.minus) || is_digit c then of_option (number (c :: r))
      else of_option (literal (c :: r))
    end
  end
with elements (fuel : nat) (s : list N) (rev_acc : list json) : reading :=
  match fuel with
  | O => Fuel
  | S fuel' =>
    match value fuel' s with
    | Read v r =>
      match skip_ws r with
      | [] => Bad
      | c :: r' =>
        if c =? Ch.comma then elements fuel' r' (v :: rev_acc)
        else if c =? Ch.rbracket then Read (JArray (rev (v :: rev_acc))) r'
        else Bad
      end
    | Bad => Bad
    | Fuel => Fuel
    end
  end
with members (fuel : nat) (s : list N) (acc : gmap (list N) json) : reading :=
  match fuel with
  | O => Fuel
  | S fuel' =>
    match skip_ws s with
    | [] => Bad
    | c :: r =>
      if c =? Ch.quote then
        match string_body r with
        | None => Bad
        | Some (k, r1) =>
          match skip_ws r1 with
          | [] => Bad
          | c1 :: r2 =>
            if c1 =? Ch.colon then
              match value fuel' r2 with
              | Read v r3 =>
                match skip_ws r3 with
                | [] => Bad
                | c3 :: r4 =>
                  if c3 =? Ch.comma then members fuel' r4 (<[k:=v]> acc)
                  else if c3 =? Ch.rbrace then Read (JObject (<[k:=v]> acc)) r4
                  else Bad
                end
              | Bad => Bad
              | Fuel => Fuel
              end
            else Bad
          end
        end
      else Bad
    end
  end.

(** [JSON.parse(text)]: one value, white space around it, and nothing
    else; [None] stands for the [SyntaxError] thrown otherwise. *)
Definition parse (text : list N) : option json :=
  match value (2 * length text + 1) text with
  | Read v rest =>
    match skip_ws rest with
    | [] => Some v
    | _ :: _ => None
    end
  | Bad => None
  | Fuel => None
  end.

End JSON.

(** ** [String.prototype.match] with a pattern without flags

    The fragment of ECMAScript patterns the controller uses: one
    alternative, made of terms; a term is an atom or an atom under the
    greedy quantifier [*]; an atom is a pattern character or a character
    class listing class escapes.  The matcher is the backtracking matcher
    of the language definition: a starred atom first takes one more code
    unit and only when the rest of the pattern then fails tries the rest
    of the pattern where it stands. *)

Module RegExp.

Inductive class_escape : Type :=
| ClassWhite       (* \s *)
| ClassNotWhite.   (* \S *)

Inductive atom : Type :=
| PatternCharacter (c : N)
| CharacterClass (members : list class_escape).

Inductive term : Type :=
| Atom (a : atom)
| Star (a : atom).

Definition pattern : Type := list term.

(** [\s]: the WhiteSpace and LineTerminator code points. *)
Definition is_white (c : N) : bool :=
  ((9 <=? c) && (c <=? 13)) || (c =? 32) || (c =? 160) || (c =? 5760)
  || ((8192 <=? c) && (c <=? 8202)) || (c =? 8232) || (c =? 8233)
  || (c =? 8239) || (c =? 8287) || (c =? 12288) || (c =? 65279).

Definition class_escape_test (e : class_escape) (c : N) : bool :=
  match e with
  | ClassWhite => is_white c
  | ClassNotWhite => negb (is_white c)
  end.

Definition atom_test (a : atom) (c : N) : bool :=
  match a with
  | PatternCharacter d => c =? d
  | CharacterClass es => existsb (fun e => class_escape_test e c) es
  end.

(** [star a k s]: the text matched by [a*] followed by the continuation
    [k], at the head of [s]. *)
Fixpoint star (a : atom) (k : list N -> option (list N)) (s : list N)
  : option (list N) :=
  match s with
  | c :: s' =>
    if atom_test a c then
      match star a k s' with
      | Some m => Some (c :: m)
      | None => k s
      end
    else k s
  | [] => k []
  end.

(** The text the pattern matches at the head of [s]. *)
Fixpoint matcher (p : pattern) (s : list N) : option (list N) :=
  match p with
  | [] => Some []
  | Atom a :: p' =>
    match s with
    | c :: s' =>
      if atom_test a c then
        match matcher p' s' with
        | Some m => Some (c :: m)
        | None => None
        end
      else None
    | [] => None
    end
  | Star a :: p' => star a (matcher p') s
  end.

(** [RegExpBuiltinExec] without the global and sticky flags: the search
    starts at index 0 and moves one code unit to the right after each
    failure, to the end of the text included.  The result is element 0
    of the match array, the matched text ([None] for [null]). *)
Fixpoint exec (p : pattern) (s : list N) : option (list N) :=
  match matcher p s with
  | Some m => Some m
  | None =>
    match s with
    | _ :: s' => exec p s'
    | [] => None
    end
  end.

End RegExp.

(** [/{[\s\S]*}/] *)
Definition brace_pattern : RegExp.pattern :=
  [ RegExp.Atom (RegExp.PatternCharacter Ch.lbrace);
    RegExp.Star (RegExp.CharacterClass [RegExp.ClassWhite; RegExp.ClassNotWhite]);
    RegExp.Atom (RegExp.PatternCharacter Ch.rbrace) ].

(** ** Effects: exceptions and the observable trace

    A handler runs in a world that records, in order, the calls of the
    two built-ins, the console lines and the replies sent with
    [res.status(..).json(..)].  A computation ends normally with a value
    or abruptly with a thrown exception; the effects made before a
    [throw] stay. *)

Inductive exn : Type :=
| SyntaxError               (* thrown by JSON.parse; its message is the engine's *)
| Error (message : string). (* new Error(message) *)

Inductive completion (A : Type) : Type :=
| Normal (a : A)
| Throw (e : exn).
Arguments Normal {A} a.
Arguments Throw {A} e.

Inductive console_line : Type :=
| log_raw_response (text : list N)     (* aiController.js, line 182 *)
| warn_invalid_substring               (* line 193 *)
| warn_no_valid_json                   (* line 197 *)
| error_parsing_invoice (e : exn)      (* line 66 *)
| error_dashboard_summary (e : exn).   (* line 204 *)

(** The body of a reply: the parsed data, or the object
    [{ message, details: error.message }] of a failure (the exception
    stands for its message). *)
Inductive body : Type :=
| Data (v : json)
| FailureReport (message : string) (details : exn).

Inductive event : Type :=
| call_parse (text : list N)           (* JSON.parse(text) *)
| call_match (text : list N)           (* text.match(/{[\s\S]*}/) *)
| console (l : console_line)
| reply (status : nat) (b : body).     (* res.status(status).json(b) *)

Definition world : Type := list event.

Definition M (A : Type) : Type := world -> completion A * world.

Definition ret {A} (a : A) : M A := fun w => (Normal a, w).

Definition bind {A B} (m : M A) (f : A -> M B) : M B :=
  fun w =>
    match m w with
    | (Normal a, w') => f a w'
    | (Throw e, w') => (Throw e, w')
    end.

Definition throw {A} (e : exn) : M A := fun w => (Throw e, w).

(** [try { m } catch (e) { h e }] *)
Definition try_catch {A} (m : M A) (h : exn -> M A) : M A :=
  fun w =>
    match m w with
    | (Normal a, w') => (Normal a, w')
    | (Throw e, w') => h e w'
    end.

Definition emit (e : event) : M unit := fun w => (Normal tt, w ++ [e]).

Declare Scope js_scope.
Delimit Scope js_scope with js.
Notation "x <- m ;; k" := (bind m (fun x => k))
  (at level 100, m at next level, right associativity) : js_scope.
Notation "m ;; k" := (bind m (fun _ => k))
  (at level 100, right associativity) : js_scope.
Local Open Scope js_scope.

(** The built-ins as effectful calls. *)
Definition JSON_parse (text : list N) : M json :=
  emit (call_parse text) ;;
  match JSON.parse text with
  | Some v => ret v
  | None => throw SyntaxError
  end.

Definition String_match (text : list N) : M (option (list N)) :=
  emit (call_match text) ;;
  ret (RegExp.exec brace_pattern text).

(** What a computation returns and what it adds to an empty trace. *)
Definition result_of {A} (m : M A) : completion A := fst (m []).
Definition events_of {A} (m : M A) : list event := snd (m []).

(** The texts handed to [JSON.parse], in the order of the calls. *)
Fixpoint parse_attempts (w : list event) : list (list N) :=
  match w with
  | call_parse t :: w' => t :: parse_attempts w'
  | _ :: w' => parse_attempts w'
  | [] => []
  end.

(** The replies sent, in order. *)
Fixpoint replies (w : list event) : list (nat * body) :=
  match w with
  | reply st b :: w' => (st, b) :: replies w'
  | _ :: w' => replies w'
  | [] => []
  end.

(** ** The handlers, from the model's answer on

    [responseText] is [data.choices?.[0]?.message?.content || ''], the
    text whose extraction the specification describes. *)

(** [{ insights: [message] }] *)
Definition insights (message : string) : json :=
  JObject {[ lit "insights" := JArray [JString (lit message)] ]}.

Module parseInvoiceFromText.

(** Lines 55 to 62: the value assigned to [parsedData]. *)
Definition parsedData (responseText : list N) : M json :=
  try_catch (JSON_parse responseText)
    (fun _ =>
       match_ <- String_match responseText ;;
       match match_ with
       | None => throw (Error "No valid JSON found in AI response.")
       | Some m0 => JSON_parse m0
       end).

(** Lines 13 and 55 to 68: the handler's [try] from the extraction on,
    and its [catch]. *)
Definition respond (responseText : list N) : M unit :=
  try_catch
    (parsedData <- parsedData responseText ;;
     emit (reply 200 (Data parsedData)))
    (fun error =>
       emit (console (error_parsing_invoice error)) ;;
       emit (reply 500
               (FailureReport "Failed to parse invoice data from text." error))).

End parseInvoiceFromText.

Module getDashboardSummary.

(** Lines 184 to 200: the value assigned to [parsedData]. *)
Definition parsedData (responseText : list N) : M json :=
  try_catch (JSON_parse responseText)
    (fun _ =>
       match_ <- String_match responseText ;;
       match match_ with
       | Some m0 =>
         try_catch (JSON_parse m0)
           (fun jsonError =>
              emit (console warn_invalid_substring) ;;
              ret (insights "AI returned invalid JSON format. Please retry."))
       | None =>
         emit (console warn_no_valid_json) ;;
         ret (insights "Unable to generate insights from data.")
       end).

(** Lines 123 and 182 to 209: the handler's [try] from the extraction
    on, and its [catch]. *)
Definition respond (responseText : list N) : M unit :=
  try_catch
    (emit (console (log_raw_response responseText)) ;;
     parsedData <- parsedData responseText ;;
     emit (reply 200 (Data parsedData)))
    (fun error =>
       emit (console (error_dashboard_summary error)) ;;
       emit (reply 500
               (FailureReport "Failed to generate dashboard insights." error))).

End getDashboardSummary.

(** ** The tagged outcome of the specification

    The specification describes the extraction as a function to
    [Success] or [Failure].  In [parseInvoiceFromText] the failures are
    the two exceptions the block can end with: the [Error] thrown when
    the pattern matches nothing, and the [SyntaxError] of the second
    [JSON.parse]. *)

Inductive failure : Type :=
| NoJsonFound
| MalformedJson.

Inductive ExtractionResult : Type :=
| Success (v : json)
| Failure (reason : failure).

Definition outcome (c : completion json) : ExtractionResult :=
  match c with
  | Normal v => Success v
  | Throw (Error _) => Failure NoJsonFound
  | Throw SyntaxError => Failure MalformedJson
  end.

Definition extract (text : list N) : ExtractionResult :=
  outcome (result_of (parseInvoiceFromText.parsedData text)).

(** ** The extraction span, in the specification's words

    The substring from the first [{] to the last [}] in a text, written
    with the index of the first occurrence, the index of the last
    occurrence and the substring between two indices. *)

Fixpoint indexOf (c : N) (s : list N) : option nat :=
  match s with
  | [] => None
  | x :: s' => if x =? c then Some 0%nat else S <$> indexOf c s'
  end.

Fixpoint lastIndexOf (c : N) (s : list N) : option nat :=
  match s with
  | [] => None
  | x :: s' =>
    match lastIndexOf c s' with
    | Some j => Some (S j)
    | None => if x =? c then Some 0%nat else None
    end
  end.

(** the code units at the indices from [i] to [j], [j] excluded *)
Definition slice (i j : nat) (s : list N) : list N := take (j - i) (drop i s).

Definition extraction_span (text : list N) : option (list N) :=
  match indexOf Ch.lbrace text, lastIndexOf Ch.rbrace text with
  | Some i, Some j => if (i <? j)%nat then Some (slice i (S j) text) else None
  | _, _ => None
  end.

(** a [{] that is later followed by a [}] *)
Definition has_brace_span (text : list N) : Prop :=
  exists i j : nat,
    (i < j)%nat /\ text !! i = Some Ch.lbrace /\ text !! j = Some Ch.rbrace.

(** [i] is the index of the first [c] of [s], [j] that of the last *)
Definition first_at (c : N) (s : list N) (i : nat) : Prop :=
  s !! i = Some c /\ forall k : nat, s !! k = Some c -> (i <= k)%nat.

Definition last_at (c : N) (s : list N) (j : nat) : Prop :=
  s !! j = Some c /\ forall k : nat, s !! k = Some c -> (k <= j)%nat.

(** every [}] occurs strictly before the first [{] *)
Definition closes_before_opens (text : list N) : Prop :=
  forall i j : nat,
    text !! i = Some Ch.lbrace -> text !! j = Some Ch.rbrace -> (j < i)%nat.

(** neither brace occurs *)
Definition brace_free (text : list N) : Prop :=
  forall k : nat, text !! k <> Some Ch.lbrace /\ text !! k <> Some Ch.rbrace.

(** [inner] occurs in [text] *)
Definition occurs_in (inner text : list N) : Prop :=
  exists before after : list N, text = before ++ inner ++ after.

(** ** Shorthands for the statements *)

(** the exception of line 60 *)
Definition no_valid_json : exn := Error "No valid JSON found in AI response.".

(** the completion of a call of [JSON.parse] *)
Definition lift_parse (o : option json) : completion json :=
  match o with
  | Some v => Normal v
  | None => Throw SyntaxError
  end.

(** the two placeholders of [getDashboardSummary], lines 194 and 198 *)
Definition invalid_format_insights : json :=
  insights "AI returned invalid JSON format. Please retry.".

Definition no_insights : json :=
  insights "Unable to generate insights from data.".

(** the reply of [parseInvoiceFromText] to an exception, line 67 *)
Definition invoice_failure (e : exn) : nat * body :=
  (500%nat, FailureReport "Failed to parse invoice data from text." e).

(** ** Shapes of texts

    Predicates on texts for the statements about wrapped answers. *)

(** [c] does not occur in [s] *)
Definition absent (c : N) (s : list N) : Prop := indexOf c s = None.

(** only the white space of JSON *)
Definition blank (s : list N) : Prop := JSON.skip_ws s = [].

(** [c] can be the first code unit of a JSON value: an opening brace or
    bracket, a quotation mark, a minus sign, a digit, or the first letter
    of true, false or null *)
Definition value_start (c : N) : bool :=
  (c =? Ch.lbrace) || (c =? Ch.lbracket) || (c =? Ch.quote) || (c =? Ch.minus)
  || JSON.is_digit c || (c =? 116) || (c =? 102) || (c =? 110).

(** the first code unit of [s] after white space cannot start a value *)
Definition starts_with_prose (s : list N) : Prop :=
  exists (c : N) (r : list N),
    JSON.skip_ws s = c :: r /\ value_start c = false.

(** [t] starts with a code unit that can prolong a number: a digit, a
    dot, or the letter of an exponent *)
Definition prolongs_number (t : list N) : bool :=
  match t with
  | c :: _ => JSON.is_digit c || (c =? Ch.dot) || (c =? 101) || (c =? 69)
  | [] => false
  end.

Definition is_number (v : json) : bool :=
  match v with JNumber _ _ => true | _ => false end.

(** * The three handlers, from the request to the reply

    The extraction sits inside two handlers.  The rest of the controller
    is embedded here: the checks on the request, the
    lookups, the reading of the provider's answer with optional chaining,
    and the outer [try]/[catch] of each handler.  What the collaborators
    give back (the database, the provider, the code that formats numbers
    and dates) enters as an argument: the value, or the exception it
    ends with. *)

Module Handler.

(** ** Values

    A value is a JSON value or [undefined] ([None]).  The bodies of
    requests and answers are values made by [JSON.parse]. *)

(** The six property names the controller reads. *)
Inductive key : Type :=
| k_text
| k_invoiceId
| k_choices
| k_0
| k_message
| k_content.

Definition key_name (k : key) : list N :=
  match k with
  | k_text => lit "text"
  | k_invoiceId => lit "invoiceId"
  | k_choices => lit "choices"
  | k_0 => lit "0"
  | k_message => lit "message"
  | k_content => lit "content"
  end.

(** [base.k] for a [base] that is neither [null] nor [undefined]: an own
    property of an object, element 0 of an array, code unit 0 of a
    string; the prototypes of objects, arrays, strings, numbers and
    booleans have no property of these six names. *)
Definition Get (base : json) (k : key) : option json :=
  match base with
  | JObject props => props !! key_name k
  | JArray xs =>
    match k with
    | k_0 => xs !! 0%nat
    | _ => None
    end
  | JString s =>
    match k with
    | k_0 => (fun c => JString [c]) <$> s !! 0%nat
    | _ => None
    end
  | JNumber _ _ | JBool _ | JNull => None
  end.

Definition is_string (v : json) : bool :=
  match v with JString _ => true | _ => false end.

Definition nullish (v : option json) : bool :=
  match v with
  | None | Some JNull => true
  | Some _ => false
  end.

(** The nearest binary64 of the decimal [m * 10^e] is a zero: the
    decimal is zero, or its magnitude is at most 2^-1075, half the least
    positive binary64 (the tie goes to zero, whose significand is even). *)
Definition rounds_to_zero (m e : Z) : bool :=
  (m =? 0)%Z || ((e <? 0)%Z && (Z.abs m * 2 ^ 1075 <=? 10 ^ (- e))%Z).

(** [ToBoolean]: [undefined], [null], [false], a zero and the empty
    string are falsy, everything else is truthy. *)
Definition truthy (v : option json) : bool :=
  match v with
  | None | Some JNull => false
  | Some (JBool b) => b
  | Some (JNumber m e) => negb (rounds_to_zero m e)
  | Some (JString s) =>
    match s with
    | [] => false
    | _ :: _ => true
    end
  | Some (JArray _) | Some (JObject _) => true
  end.

(** ** Faults, outcomes and the trace *)

Inductive fault : Type :=
| thrown (e : exn)               (* SyntaxError of JSON.parse, Error of line 60 *)
| TypeError                      (* a property of null or undefined, a call of what is no function *)
| rejected (message : list N).   (* the Error a collaborator rejects with *)

Inductive outcome (A : Type) : Type :=
| Done (a : A)
| Raise (f : fault).
Arguments Done {A} a.
Arguments Raise {A} f.

(** What is interpolated into the prompt of each request to the
    provider. *)
Inductive request : Type :=
| invoice_request (text : list N)        (* lines 14 to 36 *)
| reminder_request (details : list N)    (* lines 85 to 95 *)
| summary_request (summary : list N).    (* lines 141 to 163 *)

Inductive line : Type :=
| raw_response (responseText : json)     (* line 182 *)
| invalid_substring                      (* line 193 *)
| no_valid_json_found                    (* line 197 *)
| parsing_invoice (error : fault)        (* line 66 *)
| generating_reminder (error : fault)    (* line 116 *)
| dashboard_summary (error : fault).     (* line 204 *)

(** The body of a reply: a JSON value, or the object
    [{ message, details: error.message }] of a [catch]. *)
Inductive answer : Type :=
| Json (v : json)
| Failed (message : string) (details : fault).

Inductive io : Type :=
| io_parse (text : list N)               (* JSON.parse, with its argument as a string *)
| io_match (text : list N)               (* text.match(/{[\s\S]*}/) *)
| io_findById (id : option json)         (* Invoice.findById(invoiceId) *)
| io_find (user : option json)           (* Invoice.find({ user: req.user.id }) *)
| io_fetch (r : request)                 (* fetch(..., { method: 'POST', ... }) *)
| io_console (l : line)
| io_reply (status : nat) (b : answer).  (* res.status(status).json(b) *)

Definition F (A : Type) : Type := list io -> outcome A * list io.

Definition ret {A} (a : A) : F A := fun w => (Done a, w).

Definition bind {A B} (m : F A) (f : A -> F B) : F B :=
  fun w =>
    match m w with
    | (Done a, w') => f a w'
    | (Raise e, w') => (Raise e, w')
    end.

Definition raise {A} (f : fault) : F A := fun w => (Raise f, w).

Definition try_catch {A} (m : F A) (h : fault -> F A) : F A :=
  fun w =>
    match m w with
    | (Done a, w') => (Done a, w')
    | (Raise e, w') => h e w'
    end.

Definition emit (e : io) : F unit := fun w => (Done tt, w ++ [e]).

(** [await] of what a collaborator gives back *)
Definition await {A} (o : outcome A) : F A := fun w => (o, w).

Declare Scope handler_scope.
Delimit Scope handler_scope with handler.
Notation "x <- m ;; k" := (bind m (fun x => k))
  (at level 100, m at next level, right associativity) : handler_scope.
Notation "m ;; k" := (bind m (fun _ => k))
  (at level 100, right associativity) : handler_scope.
Local Open Scope handler_scope.

(** The replies sent, the requests made to the provider. *)
Fixpoint sent (w : list io) : list (nat * answer) :=
  match w with
  | io_reply st b :: w' => (st, b) :: sent w'
  | _ :: w' => sent w'
  | [] => []
  end.

Fixpoint fetched (w : list io) : list request :=
  match w with
  | io_fetch r :: w' => r :: fetched w'
  | _ :: w' => fetched w'
  | [] => []
  end.

(** The trace of the extraction model, read as a trace of this one. *)
Definition of_line (l : console_line) : line :=
  match l with
  | log_raw_response text => raw_response (JString text)
  | warn_invalid_substring => invalid_substring
  | warn_no_valid_json => no_valid_json_found
  | error_parsing_invoice e => parsing_invoice (thrown e)
  | error_dashboard_summary e => dashboard_summary (thrown e)
  end.

Definition of_body (b : body) : answer :=
  match b with
  | Data v => Json v
  | FailureReport message e => Failed message (thrown e)
  end.

Definition of_completion {A} (c : completion A) : outcome A :=
  match c with
  | Normal a => Done a
  | Throw e => Raise (thrown e)
  end.

Definition of_event (e : event) : io :=
  match e with
  | call_parse text => io_parse text
  | call_match text => io_match text
  | console l => io_console (of_line l)
  | reply st b => io_reply st (of_body b)
  end.

(** ** Reading the provider's answer *)

(** [base?.k] *)
Definition optional (base : option json) (k : key) : option json :=
  match base with
  | None | Some JNull => None
  | Some b => Get b k
  end.

(** [base.k], and the destructuring [const { k } = base] *)
Definition member (base : option json) (k : key) : outcome (option json) :=
  if nullish base then Raise TypeError else Done (optional base k).

(** [data.choices?.[0]?.message?.content || ''] (lines 53, 112, 180);
    [data] is what [response.json()] resolved to. *)
Definition content_or_empty (data : json) : outcome json :=
  match data with
  | JNull => Raise TypeError
  | _ =>
    let content :=
      optional (optional (optional (Get data k_choices) k_0) k_message)
        k_content in
    Done (if truthy content then default (JString []) content else JString [])
  end.

(** [data] holds [v] at [choices[0].message.content] *)
Definition carries (data v : json) : Prop :=
  exists c f m : json,
    Get data k_choices = Some c /\ Get c k_0 = Some f /\
    Get f k_message = Some m /\ Get m k_content = Some v.

(** [{ message: text }] and [{ reminderText: v }] *)
Definition message_body (text : string) : answer :=
  Json (JObject {[ lit "message" := JString (lit text) ]}).

Definition reminder_body (v : json) : answer :=
  Json (JObject {[ lit "reminderText" := v ]}).

Section Collaborators.

(** A document of the [Invoice] model. *)
Variable invoice : Type.

(** [ToString] of a number or an array: the digits of a binary64 and the
    joining of elements are not modelled. *)
Variable ToString_other : json -> outcome (list N).

(** Lines 85 to 95: the four interpolations of the reminder prompt, a
    [TypeError] when a field they read is missing. *)
Variable reminder_details : invoice -> outcome (list N).

(** Lines 130 to 148: the data summary, a [TypeError] when a total is no
    number. *)
Variable data_summary : list invoice -> outcome (list N).

(** [ToString]: a string is itself; an object is [[object Object]],
    unless it has an own property [toString], which is no function, and
    the conversion throws. *)
Definition ToString (v : json) : outcome (list N) :=
  match v with
  | JString s => Done s
  | JNull => Done (lit "null")
  | JBool true => Done (lit "true")
  | JBool false => Done (lit "false")
  | JObject props =>
    match props !! lit "toString" with
    | Some _ => Raise TypeError
    | None => Done (lit "[object Object]")
    end
  | JNumber _ _ | JArray _ => ToString_other v
  end.

(** [ToString] of a value that may be [undefined] *)
Definition ToString_value (v : option json) : outcome (list N) :=
  match v with
  | None => Done (lit "undefined")
  | Some x => ToString x
  end.

(** [JSON.parse(v)] *)
Definition JSON_parse (v : json) : F json :=
  s <- await (ToString v) ;;
  emit (io_parse s) ;;
  match JSON.parse s with
  | Some x => ret x
  | None => raise (thrown SyntaxError)
  end.

(** [v.match(/{[\s\S]*}/)]: only a string has a method [match]. *)
Definition String_match (v : json) : F (option (list N)) :=
  match v with
  | JString s => emit (io_match s) ;; ret (RegExp.exec brace_pattern s)
  | _ => raise TypeError
  end.

(** Lines 55 to 62, for any value of [responseText]. *)
Definition invoice_parsedData (responseText : json) : F json :=
  try_catch (JSON_parse responseText)
    (fun _ =>
       match_ <- String_match responseText ;;
       match match_ with
       | None => raise (thrown (Error "No valid JSON found in AI response."))
       | Some m0 => JSON_parse (JString m0)
       end).

(** Lines 184 to 200, for any value of [responseText]. *)
Definition dashboard_parsedData (responseText : json) : F json :=
  try_catch (JSON_parse responseText)
    (fun _ =>
       match_ <- String_match responseText ;;
       match match_ with
       | Some m0 =>
         try_catch (JSON_parse (JString m0))
           (fun jsonError =>
              emit (io_console invalid_substring) ;;
              ret (insights "AI returned invalid JSON format. Please retry."))
       | None =>
         emit (io_console no_valid_json_found) ;;
         ret (insights "Unable to generate insights from data.")
       end).

(** Lines 7 to 69.  [body] is [req.body]; [network] is what [fetch] and
    [response.json()] give back. *)
Definition parseInvoiceFromText
    (body : option json) (network : outcome json) : F unit :=
  text <- await (member body k_text) ;;
  if negb (truthy text) then
    emit (io_reply 400 (message_body "Text is required"))
  else
    try_catch
      (prompt <- await (ToString_value text) ;;
       emit (io_fetch (invoice_request prompt)) ;;
       data <- await network ;;
       responseText <- await (content_or_empty data) ;;
       parsedData <- invoice_parsedData responseText ;;
       emit (io_reply 200 (Json parsedData)))
      (fun error =>
         emit (io_console (parsing_invoice error)) ;;
         emit (io_reply 500
                 (Failed "Failed to parse invoice data from text." error))).

(** Lines 72 to 119.  [lookup] is what [Invoice.findById] gives back. *)
Definition generateReminderEmail
    (body : option json) (lookup : outcome (option invoice))
    (network : outcome json) : F unit :=
  invoiceId <- await (member body k_invoiceId) ;;
  if negb (truthy invoiceId) then
    emit (io_reply 400 (message_body "Invoice ID is required"))
  else
    try_catch
      (emit (io_findById invoiceId) ;;
       found <- await lookup ;;
       match found with
       | None => emit (io_reply 404 (message_body "Invoice not found"))
       | Some inv =>
         details <- await (reminder_details inv) ;;
         emit (io_fetch (reminder_request details)) ;;
         data <- await network ;;
         reminderText <- await (content_or_empty data) ;;
         emit (io_reply 200 (reminder_body reminderText))
       end)
      (fun error =>
         emit (io_console (generating_reminder error)) ;;
         emit (io_reply 500
                 (Failed "Failed to generate reminder email." error))).

(** Lines 122 to 210.  [user_id] is what evaluating [req.user.id] gives
    (a [TypeError] when [req.user] is missing); [found] is what
    [Invoice.find] gives back. *)
Definition getDashboardSummary
    (user_id : outcome (option json)) (found : outcome (list invoice))
    (network : outcome json) : F unit :=
  try_catch
    (id <- await user_id ;;
     emit (io_find id) ;;
     invoices <- await found ;;
     match invoices with
     | [] =>
       emit (io_reply 200
               (Json (insights "No invoice data available to generate insights.")))
     | _ :: _ =>
       summary <- await (data_summary invoices) ;;
       emit (io_fetch (summary_request summary)) ;;
       data <- await network ;;
       responseText <- await (content_or_empty data) ;;
       emit (io_console (raw_response responseText)) ;;
       parsedData <- dashboard_parsedData responseText ;;
       emit (io_reply 200 (Json parsedData))
     end)
    (fun error =>
       emit (io_console (dashboard_summary error)) ;;
       emit (io_reply 500
               (Failed "Failed to generate dashboard insights." error))).

(** ** The counts of the dashboard (lines 130 to 137) *)

(** [inv.status], a value *)
Variable status : invoice -> option json.

(** [v === 'Paid'] *)
Definition is_Paid (v : option json) : bool :=
  match v with
  | Some (JString s) => bool_decide (s = lit "Paid")
  | _ => false
  end.

Definition paidInvoices (invoices : list invoice) : list invoice :=
  filter (fun inv => is_Paid (status inv) = true) invoices.

Definition unpaidInvoices (invoices : list invoice) : list invoice :=
  filter (fun inv => is_Paid (status inv) <> true) invoices.

(** [invoices.slice(0, 5)] *)
Definition recent (invoices : list invoice) : list invoice := take 5 invoices.

End Collaborators.

(** ** Shorthands for the statements

    What the [catch] of each handler does with an exception. *)

Definition invoice_caught (error : fault) (w : list io) : outcome unit * list io :=
  (Done tt,
   w ++ [io_console (parsing_invoice error);
         io_reply 500 (Failed "Failed to parse invoice data from text." error)]).

Definition reminder_caught (error : fault) (w : list io) : outcome unit * list io :=
  (Done tt,
   w ++ [io_console (generating_reminder error);
         io_reply 500 (Failed "Failed to generate reminder email." error)]).

Definition dashboard_caught (error : fault) (w : list io) : outcome unit * list io :=
  (Done tt,
   w ++ [io_console (dashboard_summary error);
         io_reply 500 (Failed "Failed to generate dashboard insights." error)]).

End Handler.

(** * Properties *)

(** ** Indices *)

Lemma indexOf_Some c s i : indexOf c s = Some i -> first_at c s i.
Proof.
  revert i. induction s as [|x s IH]; intros i; simpl; [discriminate|].
  destruct (N.eqb_spec x c) as [->|Hne].
  - intros [= <-]. split; [reflexivity|]. intros k _. lia.
  - destruct (indexOf c s) as [i'|]; simpl; [|discriminate].
    intros [= <-]. destruct (IH i' eq_refl) as [Hi Hmin]. split; [exact Hi|].
    intros [|k]; simpl.
    + intros [= ?]. congruence.
    + intros Hk. apply Hmin in Hk. lia.
Qed.

Lemma indexOf_None c s : indexOf c s = None -> forall k : nat, s !! k <> Some c.
Proof.
  induction s as [|x s IH]; simpl; intros H k.
  - rewrite lookup_nil. discriminate.
  - destruct (N.eqb_spec x c) as [->|Hne]; [discriminate|].
    destruct (indexOf c s); [discriminate|].
    destruct k as [|k]; simpl; [congruence | apply IH; reflexivity].
Qed.

Lemma lastIndexOf_None c s :
  lastIndexOf c s = None -> forall k : nat, s !! k <> Some c.
Proof.
  induction s as [|x s IH]; simpl; intros H k.
  - rewrite lookup_nil. discriminate.
  - destruct (lastIndexOf c s); [discriminate|].
    destruct (N.eqb_spec x c) as [->|Hne]; [discriminate|].
    destruct k as [|k]; simpl; [congruence | apply IH; reflexivity].
Qed.

Lemma lastIndexOf_Some c s j : lastIndexOf c s = Some j -> last_at c s j.
Proof.
  revert j. induction s as [|x s IH]; intros j; simpl; [discriminate|].
  destruct (lastIndexOf c s) as [j'|] eqn:E.
  - intros [= <-]. destruct (IH j' eq_refl) as [Hj Hmax]. split; [exact Hj|].
    intros [|k]; simpl; [lia|]. intros Hk. apply Hmax in Hk. lia.
  - destruct (N.eqb_spec x c) as [->|Hne]; [|discriminate].
    intros [= <-]. split; [reflexivity|].
    intros [|k]; simpl; [lia|]. intros Hk.
    exfalso. exact (lastIndexOf_None _ _ E _ Hk).
Qed.

Lemma first_at_unique c s i i' : first_at c s i -> first_at c s i' -> i = i'.
Proof. intros [H1 H2] [H3 H4]. apply H2 in H3. apply H4 in H1. lia. Qed.

Lemma last_at_unique c s j j' : last_at c s j -> last_at c s j' -> j = j'.
Proof. intros [H1 H2] [H3 H4]. apply H2 in H3. apply H4 in H1. lia. Qed.

(** ** The pattern finds the extraction span *)

Lemma any_unit c :
  RegExp.atom_test
    (RegExp.CharacterClass [RegExp.ClassWhite; RegExp.ClassNotWhite]) c = true.
Proof. simpl. destruct (RegExp.is_white c); reflexivity. Qed.

(** [[\s\S]*}] at the head of [s]: everything up to the last [}]. *)
Lemma star_any_rbrace s :
  RegExp.star
    (RegExp.CharacterClass [RegExp.ClassWhite; RegExp.ClassNotWhite])
    (RegExp.matcher [RegExp.Atom (RegExp.PatternCharacter Ch.rbrace)]) s
  = (fun j => take (S j) s) <$> lastIndexOf Ch.rbrace s.
Proof.
  induction s as [|x s IH]; [reflexivity|].
  cbn [RegExp.star]. rewrite any_unit, IH. cbn [lastIndexOf].
  destruct (lastIndexOf Ch.rbrace s) as [j|]; [reflexivity|].
  simpl. destruct (x =? Ch.rbrace); reflexivity.
Qed.

Lemma matcher_brace_pattern s :
  RegExp.matcher brace_pattern s =
  match s with
  | x :: s' =>
    if x =? Ch.lbrace
    then (fun j => x :: take (S j) s') <$> lastIndexOf Ch.rbrace s'
    else None
  | [] => None
  end.
Proof.
  destruct s as [|x s]; [reflexivity|].
  unfold brace_pattern. cbn [RegExp.matcher RegExp.atom_test].
  destruct (x =? Ch.lbrace); [|reflexivity].
  rewrite star_any_rbrace. destruct (lastIndexOf Ch.rbrace s); reflexivity.
Qed.

Lemma extraction_span_cons_other x s :
  x <> Ch.lbrace -> extraction_span (x :: s) = extraction_span s.
Proof.
  intros Hx. unfold extraction_span. cbn [indexOf lastIndexOf].
  destruct (N.eqb_spec x Ch.lbrace) as [|_]; [contradiction|].
  destruct (indexOf Ch.lbrace s) as [i|]; simpl; [|reflexivity].
  destruct (lastIndexOf Ch.rbrace s) as [j|].
  - change (S i <? S j)%nat with (i <? j)%nat.
    destruct (i <? j)%nat; reflexivity.
  - destruct (x =? Ch.rbrace); reflexivity.
Qed.

(** The refinement: what [text.match(/{[\s\S]*}/)] returns is the
    extraction span of the specification, for every text. *)
Lemma exec_brace_pattern s : RegExp.exec brace_pattern s = extraction_span s.
Proof.
  induction s as [|x s IH]; [reflexivity|].
  cbn [RegExp.exec]. rewrite matcher_brace_pattern.
  destruct (N.eqb_spec x Ch.lbrace) as [->|Hx].
  - unfold extraction_span. cbn [indexOf lastIndexOf]. simpl (_ =? _).
    destruct (lastIndexOf Ch.rbrace s) as [j|] eqn:E; simpl.
    + reflexivity.
    + rewrite IH. unfold extraction_span. rewrite E.
      destruct (indexOf Ch.lbrace s); reflexivity.
  - rewrite IH. symmetry. apply extraction_span_cons_other, Hx.
Qed.

Lemma extraction_span_Some text :
  has_brace_span text ->
  exists i j : nat,
    first_at Ch.lbrace text i /\ last_at Ch.rbrace text j /\ (i < j)%nat /\
    extraction_span text = Some (slice i (S j) text).
Proof.
  intros (i0 & j0 & Hlt & Hi0 & Hj0). unfold extraction_span.
  destruct (indexOf Ch.lbrace text) as [i|] eqn:Ei.
  2:{ exfalso. exact (indexOf_None _ _ Ei _ Hi0). }
  destruct (lastIndexOf Ch.rbrace text) as [j|] eqn:Ej.
  2:{ exfalso. exact (lastIndexOf_None _ _ Ej _ Hj0). }
  apply indexOf_Some in Ei. apply lastIndexOf_Some in Ej.
  assert (i < j)%nat as Hij.
  { destruct Ei as [_ Hmin]. destruct Ej as [_ Hmax].
    apply Hmin in Hi0. apply Hmax in Hj0. lia. }
  exists i, j. split; [exact Ei|]. split; [exact Ej|]. split; [exact Hij|].
  apply Nat.ltb_lt in Hij. rewrite Hij. reflexivity.
Qed.

Lemma extraction_span_None text :
  extraction_span text = None <-> ~ has_brace_span text.
Proof.
  split.
  - intros E H. apply extraction_span_Some in H as (i & j & _ & _ & _ & E').
    congruence.
  - intros H. unfold extraction_span.
    destruct (indexOf Ch.lbrace text) as [i|] eqn:Ei; [|reflexivity].
    destruct (lastIndexOf Ch.rbrace text) as [j|] eqn:Ej; [|reflexivity].
    destruct (Nat.ltb_spec i j) as [Hij|_]; [|reflexivity].
    exfalso. apply H. exists i, j.
    apply indexOf_Some in Ei as [Hi _]. apply lastIndexOf_Some in Ej as [Hj _].
    auto.
Qed.

(** ** [JSON.parse] never reaches its recursion bound

    Every successful reading takes at least one code unit, so the bound
    [2 * length text + 1] is never reached: [JSON.parse text = None]
    always stands for a syntax error. *)

Lemma skip_ws_length s : (length (JSON.skip_ws s) <= length s)%nat.
Proof.
  induction s as [|c s IH]; simpl; [lia|].
  destruct (JSON.is_ws c); simpl; lia.
Qed.

Lemma string_body_shorter s str out :
  JSON.string_body s = Some (str, out) -> (length out < length s)%nat.
Proof.
  remember (length s) as n eqn:Hn. revert s str out Hn.
  induction n as [n IH] using lt_wf_ind. intros s str out Hn.
  destruct s as [|c rest]; simpl; [discriminate|].
  destruct (c =? Ch.quote).
  { intros [= <- <-]. simpl in Hn. lia. }
  destruct (c =? Ch.backslash).
  - destruct rest as [|e rest1]; [discriminate|].
    destruct (e =? 117).
    + destruct rest1 as [|a [|b [|c' [|d rest2]]]]; try discriminate.
      destruct (JSON.hex4 a b c' d); [|discriminate].
      destruct (JSON.string_body rest2) as [[str' out']|] eqn:E; [|discriminate].
      intros [= <- <-]. simpl in Hn.
      apply (IH (length rest2)) in E; [lia | lia | reflexivity].
    + destruct (JSON.escape e); [|discriminate].
      destruct (JSON.string_body rest1) as [[str' out']|] eqn:E; [|discriminate].
      intros [= <- <-]. simpl in Hn.
      apply (IH (length rest1)) in E; [lia | lia | reflexivity].
  - destruct (c <? 32); [discriminate|].
    destruct (JSON.string_body rest) as [[str' out']|] eqn:E; [|discriminate].
    intros [= <- <-]. simpl in Hn.
    apply (IH (length rest)) in E; [lia | lia | reflexivity].
Qed.

Lemma digits_length s ds out :
  JSON.digits s = (ds, out) -> (length out <= length s)%nat.
Proof.
  revert ds out. induction s as [|c s IH]; intros ds out; simpl.
  - intros [= <- <-]. simpl. lia.
  - destruct (JSON.is_digit c).
    + destruct (JSON.digits s) as [ds' out'] eqn:E. intros [= <- <-].
      specialize (IH _ _ eq_refl). lia.
    + intros [= <- <-]. simpl. lia.
Qed.

Lemma int_part_shorter s ds out :
  JSON.int_part s = Some (ds, out) -> (length out < length s)%nat.
Proof.
  destruct s as [|c s]; [discriminate|]. unfold JSON.int_part.
  destruct (c =? Ch.zero).
  { intros [= <- <-]. simpl. lia. }
  destruct (JSON.is_digit c) eqn:Hd; [|discriminate].
  simpl. rewrite Hd. destruct (JSON.digits s) as [ds' out'] eqn:E.
  intros [= <- <-]. apply digits_length in E. simpl. lia.
Qed.

Lemma frac_part_length s ds out :
  JSON.frac_part s = Some (ds, out) -> (length out <= length s)%nat.
Proof.
  destruct s as [|c s]; simpl.
  { intros [= <- <-]. simpl. lia. }
  destruct (c =? Ch.dot).
  - destruct (JSON.digits s) as [[|d ds'] out'] eqn:E; [discriminate|].
    intros [= <- <-]. apply digits_length in E. lia.
  - intros [= <- <-]. simpl. lia.
Qed.

Lemma exp_part_length s ex out :
  JSON.exp_part s = Some (ex, out) -> (length out <= length s)%nat.
Proof.
  destruct s as [|c s]; simpl.
  { intros [= <- <-]. simpl. lia. }
  destruct ((c =? 101) || (c =? 69)).
  - destruct s as [|g s2].
    + simpl. discriminate.
    + destruct (g =? Ch.minus); [|destruct (g =? Ch.plus)].
      * destruct (JSON.digits s2) as [[|d ds'] out'] eqn:E; [discriminate|].
        intros [= <- <-]. apply digits_length in E. simpl. lia.
      * destruct (JSON.digits s2) as [[|d ds'] out'] eqn:E; [discriminate|].
        intros [= <- <-]. apply digits_length in E. simpl. lia.
      * destruct (JSON.digits (g :: s2)) as [[|d ds'] out'] eqn:E; [discriminate|].
        intros [= <- <-]. apply digits_length in E. simpl in *. lia.
  - intros [= <- <-]. simpl. lia.
Qed.

Lemma number_shorter s v out :
  JSON.number s = Some (v, out) -> (length out < length s)%nat.
Proof.
  unfold JSON.number.
  assert (forall neg s0, (length s0 <= length s)%nat ->
    match JSON.int_part s0 with
    | Some (ids, s1) =>
      match JSON.frac_part s1 with
      | Some (fds, s2) =>
        match JSON.exp_part s2 with
        | Some (ex, s3) => Some (JSON.decimal neg ids fds ex, s3)
        | None => None
        end
      | None => None
      end
    | None => None
    end = Some (v, out) -> (length out < length s)%nat) as H.
  { intros neg s0 Hle.
    destruct (JSON.int_part s0) as [[ids s1]|] eqn:E1; [|discriminate].
    destruct (JSON.frac_part s1) as [[fds s2]|] eqn:E2; [|discriminate].
    destruct (JSON.exp_part s2) as [[ex s3]|] eqn:E3; [|discriminate].
    intros [= _ <-]. apply int_part_shorter in E1.
    apply frac_part_length in E2. apply exp_part_length in E3. lia. }
  destruct s as [|c s']; [apply H; simpl; lia|].
  destruct (c =? Ch.minus); apply H; simpl; lia.
Qed.

Lemma word_length w s out :
  JSON.word w s = Some out -> (length out + length w = length s)%nat.
Proof.
  revert s. induction w as [|a w IH]; intros [|c s]; simpl;
    try discriminate; try (intros [= <-]; simpl; lia).
  destruct (a =? c); [|discriminate]. intros H. apply IH in H. lia.
Qed.

Lemma literal_shorter s v out :
  JSON.literal s = Some (v, out) -> (length out < length s)%nat.
Proof.
  unfold JSON.literal.
  destruct (JSON.word (lit "null") s) eqn:E1.
  { intros [= _ <-]. apply word_length in E1. simpl in E1. lia. }
  destruct (JSON.word (lit "true") s) eqn:E2.
  { intros [= _ <-]. apply word_length in E2. simpl in E2. lia. }
  destruct (JSON.word (lit "false") s) eqn:E3; [|discriminate].
  intros [= _ <-]. apply word_length in E3. simpl in E3. lia.
Qed.

Lemma of_option_shorter o (s : list N) v out :
  (forall v out, o = Some (v, out) -> (length out < length s)%nat) ->
  JSON.of_option o = JSON.Read v out -> (length out < length s)%nat.
Proof.
  intros H. destruct o as [[v' out']|]; simpl; [|discriminate].
  intros [= <- <-]. eapply H. reflexivity.
Qed.

Lemma of_option_not_fuel o : JSON.of_option o <> JSON.Fuel.
Proof. destruct o as [[v out]|]; discriminate. Qed.

(** The unfolding equations of the three readers. *)
Lemma value_S fuel s :
  JSON.value (S fuel) s =
  match JSON.skip_ws s with
  | [] => JSON.Bad
  | c :: r =>
    if c =? Ch.lbrace then
      match JSON.skip_ws r with
      | [] => JSON.Bad
      | c' :: r' =>
        if c' =? Ch.rbrace then JSON.Read (JObject ∅) r'
        else JSON.members fuel (c' :: r') ∅
      end
    else if c =? Ch.lbracket then
      match JSON.skip_ws r with
      | [] => JSON.Bad
      | c' :: r' =>
        if c' =? Ch.rbracket then JSON.Read (JArray []) r'
        else JSON.elements fuel (c' :: r') []
      end
    else if c =? Ch.quote then
      match JSON.string_body r with
      | Some (str, out) => JSON.Read (JString str) out
      | None => JSON.Bad
      end
    else if (c =? Ch.minus) || JSON.is_digit c
    then JSON.of_option (JSON.number (c :: r))
    else JSON.of_option (JSON.literal (c :: r))
  end.
Proof. reflexivity. Qed.

Lemma elements_S fuel s rev_acc :
  JSON.elements (S fuel) s rev_acc =
  match JSON.value fuel s with
  | JSON.Read v r =>
    match JSON.skip_ws r with
    | [] => JSON.Bad
    | c :: r' =>
      if c =? Ch.comma then JSON.elements fuel r' (v :: rev_acc)
      else if c =? Ch.rbracket then JSON.Read (JArray (rev (v :: rev_acc))) r'
      else JSON.Bad
    end
  | JSON.Bad => JSON.Bad
  | JSON.Fuel => JSON.Fuel
  end.
Proof. reflexivity. Qed.

Lemma members_S fuel s acc :
  JSON.members (S fuel) s acc =
  match JSON.skip_ws s with
  | [] => JSON.Bad
  | c :: r =>
    if c =? Ch.quote then
      match JSON.string_body r with
      | None => JSON.Bad
      | Some (k, r1) =>
        match JSON.skip_ws r1 with
        | [] => JSON.Bad
        | c1 :: r2 =>
          if c1 =? Ch.colon then
            match JSON.value fuel r2 with
            | JSON.Read v r3 =>
              match JSON.skip_ws r3 with
              | [] => JSON.Bad
              | c3 :: r4 =>
                if c3 =? Ch.comma then JSON.members fuel r4 (<[k:=v]> acc)
                else if c3 =? Ch.rbrace
                then JSON.Read (JObject (<[k:=v]> acc)) r4
                else JSON.Bad
              end
            | JSON.Bad => JSON.Bad
            | JSON.Fuel => JSON.Fuel
            end
          else JSON.Bad
        end
      end
    else JSON.Bad
  end.
Proof. reflexivity. Qed.

(** Uses of [skip_ws_length] and of the length of a cons, for [lia]. *)
Ltac ws_bounds :=
  repeat match goal with
  | E : JSON.skip_ws ?s = _ :: _ |- _ =>
    let H := fresh "Hws" in
    pose proof (skip_ws_length s) as H; rewrite E in H; simpl in H;
    revert E
  end; intros; simpl in *.

(** A successful reading leaves strictly less than it was given. *)
Lemma readers_consume fuel :
  (forall s v out,
     JSON.value fuel s = JSON.Read v out -> (length out < length s)%nat) /\
  (forall s acc v out,
     JSON.elements fuel s acc = JSON.Read v out -> (length out < length s)%nat) /\
  (forall s acc v out,
     JSON.members fuel s acc = JSON.Read v out -> (length out < length s)%nat).
Proof.
  induction fuel as [|fuel (IHv & IHe & IHm)];
    [repeat split; intros; discriminate|].
  split; [|split].
  - intros s v out. rewrite value_S.
    destruct (JSON.skip_ws s) as [|c r] eqn:Es; [discriminate|].
    destruct (c =? Ch.lbrace).
    { destruct (JSON.skip_ws r) as [|c' r'] eqn:Er; [discriminate|].
      destruct (c' =? Ch.rbrace).
      - intros [= _ <-]. ws_bounds. lia.
      - intros H. apply IHm in H. ws_bounds. lia. }
    destruct (c =? Ch.lbracket).
    { destruct (JSON.skip_ws r) as [|c' r'] eqn:Er; [discriminate|].
      destruct (c' =? Ch.rbracket).
      - intros [= _ <-]. ws_bounds. lia.
      - intros H. apply IHe in H. ws_bounds. lia. }
    destruct (c =? Ch.quote).
    { destruct (JSON.string_body r) as [[str o]|] eqn:Eb; [|discriminate].
      intros [= _ <-]. apply string_body_shorter in Eb. ws_bounds. lia. }
    destruct ((c =? Ch.minus) || JSON.is_digit c).
    + intros H. apply (of_option_shorter _ (c :: r)) in H.
      * ws_bounds. lia.
      * intros ? ?. apply number_shorter.
    + intros H. apply (of_option_shorter _ (c :: r)) in H.
      * ws_bounds. lia.
      * intros ? ?. apply literal_shorter.
  - intros s acc v out. rewrite elements_S.
    destruct (JSON.value fuel s) as [v1 r| |] eqn:Ev; try discriminate.
    apply IHv in Ev.
    destruct (JSON.skip_ws r) as [|c r'] eqn:Er; [discriminate|].
    destruct (c =? Ch.comma).
    + intros H. apply IHe in H. ws_bounds. lia.
    + destruct (c =? Ch.rbracket); [|discriminate].
      intros [= _ <-]. ws_bounds. lia.
  - intros s acc v out. rewrite members_S.
    destruct (JSON.skip_ws s) as [|c r] eqn:Es; [discriminate|].
    destruct (c =? Ch.quote); [|discriminate].
    destruct (JSON.string_body r) as [[k r1]|] eqn:Eb; [|discriminate].
    apply string_body_shorter in Eb.
    destruct (JSON.skip_ws r1) as [|c1 r2] eqn:E1; [discriminate|].
    destruct (c1 =? Ch.colon); [|discriminate].
    destruct (JSON.value fuel r2) as [v1 r3| |] eqn:Ev; try discriminate.
    apply IHv in Ev.
    destruct (JSON.skip_ws r3) as [|c3 r4] eqn:E3; [discriminate|].
    destruct (c3 =? Ch.comma).
    + intros H. apply IHm in H. ws_bounds. lia.
    + destruct (c3 =? Ch.rbrace); [|discriminate].
      intros [= _ <-]. ws_bounds. lia.
Qed.

(** With [2 * length s + 1] steps for a value, and one more for the rest
    of an array or object, the bound is not reached. *)
Lemma readers_fuel fuel :
  (forall s, (2 * length s + 1 <= fuel)%nat -> JSON.value fuel s <> JSON.Fuel) /\
  (forall s acc,
     (2 * length s + 2 <= fuel)%nat -> JSON.elements fuel s acc <> JSON.Fuel) /\
  (forall s acc,
     (2 * length s + 2 <= fuel)%nat -> JSON.members fuel s acc <> JSON.Fuel).
Proof.
  induction fuel as [|fuel (IHv & IHe & IHm)];
    [repeat split; intros; lia|].
  split; [|split].
  - intros s Hf. rewrite value_S.
    destruct (JSON.skip_ws s) as [|c r] eqn:Es; [discriminate|].
    destruct (c =? Ch.lbrace).
    { destruct (JSON.skip_ws r) as [|c' r'] eqn:Er; [discriminate|].
      destruct (c' =? Ch.rbrace); [discriminate|].
      apply IHm. ws_bounds. lia. }
    destruct (c =? Ch.lbracket).
    { destruct (JSON.skip_ws r) as [|c' r'] eqn:Er; [discriminate|].
      destruct (c' =? Ch.rbracket); [discriminate|].
      apply IHe. ws_bounds. lia. }
    destruct (c =? Ch.quote).
    { destruct (JSON.string_body r) as [[str o]|]; discriminate. }
    destruct ((c =? Ch.minus) || JSON.is_digit c); apply of_option_not_fuel.
  - intros s acc Hf. rewrite elements_S.
    destruct (JSON.value fuel s) as [v1 r| |] eqn:Ev.
    + apply (proj1 (readers_consume fuel)) in Ev.
      destruct (JSON.skip_ws r) as [|c r'] eqn:Er; [discriminate|].
      destruct (c =? Ch.comma).
      * apply IHe. ws_bounds. lia.
      * destruct (c =? Ch.rbracket); discriminate.
    + discriminate.
    + exfalso. revert Ev. apply IHv. lia.
  - intros s acc Hf. rewrite members_S.
    destruct (JSON.skip_ws s) as [|c r] eqn:Es; [discriminate|].
    destruct (c =? Ch.quote); [|discriminate].
    destruct (JSON.string_body r) as [[k r1]|] eqn:Eb; [|discriminate].
    apply string_body_shorter in Eb.
    destruct (JSON.skip_ws r1) as [|c1 r2] eqn:E1; [discriminate|].
    destruct (c1 =? Ch.colon); [|discriminate].
    destruct (JSON.value fuel r2) as [v1 r3| |] eqn:Ev.
    + apply (proj1 (readers_consume fuel)) in Ev.
      destruct (JSON.skip_ws r3) as [|c3 r4] eqn:E3; [discriminate|].
      destruct (c3 =? Ch.comma).
      * apply IHm. ws_bounds. lia.
      * destruct (c3 =? Ch.rbrace); discriminate.
    + discriminate.
    + exfalso. revert Ev. apply IHv. ws_bounds. lia.
Qed.

Lemma value_fuel text : JSON.value (2 * length text + 1) text <> JSON.Fuel.
Proof. apply readers_fuel. lia. Qed.

(** [None] is a syntax error: the text holds no value at its head, or
    something other than white space follows the value. *)
Lemma parse_None text :
  JSON.parse text = None <->
  JSON.value (2 * length text + 1) text = JSON.Bad \/
  exists v c rest,
    JSON.value (2 * length text + 1) text = JSON.Read v rest /\
    exists rest', JSON.skip_ws rest = c :: rest'.
Proof.
  unfold JSON.parse. pose proof (value_fuel text) as Hf.
  destruct (JSON.value (2 * length text + 1) text) as [v rest| |].
  - destruct (JSON.skip_ws rest) as [|c rest'] eqn:E; split.
    + discriminate.
    + intros [|(v' & c & r & [= <- <-] & r' & E')]; congruence.
    + intros _. right. exists v, c, rest. eauto.
    + reflexivity.
  - split; auto.
  - contradiction.
Qed.

(** ** Running the handlers

    The value and the trace of each block, case by case. *)

Lemma invoice_parsedData_run text w :
  parseInvoiceFromText.parsedData text w =
  match JSON.parse text with
  | Some v => (Normal v, w ++ [call_parse text])
  | None =>
    match RegExp.exec brace_pattern text with
    | None => (Throw no_valid_json, w ++ [call_parse text; call_match text])
    | Some m0 =>
      (lift_parse (JSON.parse m0),
       w ++ [call_parse text; call_match text; call_parse m0])
    end
  end.
Proof.
  unfold parseInvoiceFromText.parsedData, try_catch, JSON_parse, String_match,
    bind, emit, ret, throw.
  destruct (JSON.parse text); [reflexivity|].
  destruct (RegExp.exec brace_pattern text) as [m0|].
  - destruct (JSON.parse m0); simpl; rewrite <- !app_assoc; reflexivity.
  - rewrite <- !app_assoc. reflexivity.
Qed.

Lemma dashboard_parsedData_run text w :
  getDashboardSummary.parsedData text w =
  match JSON.parse text with
  | Some v => (Normal v, w ++ [call_parse text])
  | None =>
    match RegExp.exec brace_pattern text with
    | None =>
      (Normal (insights "Unable to generate insights from data."),
       w ++ [call_parse text; call_match text; console warn_no_valid_json])
    | Some m0 =>
      match JSON.parse m0 with
      | Some v =>
        (Normal v, w ++ [call_parse text; call_match text; call_parse m0])
      | None =>
        (Normal (insights "AI returned invalid JSON format. Please retry."),
         w ++ [call_parse text; call_match text; call_parse m0;
               console warn_invalid_substring])
      end
    end
  end.
Proof.
  unfold getDashboardSummary.parsedData, try_catch, JSON_parse, String_match,
    bind, emit, ret, throw.
  destruct (JSON.parse text); [reflexivity|].
  destruct (RegExp.exec brace_pattern text) as [m0|].
  - destruct (JSON.parse m0); simpl; rewrite <- !app_assoc; reflexivity.
  - rewrite <- !app_assoc. reflexivity.
Qed.

Lemma invoice_respond_run text w :
  parseInvoiceFromText.respond text w =
  match parseInvoiceFromText.parsedData text w with
  | (Normal v, w') => (Normal tt, w' ++ [reply 200 (Data v)])
  | (Throw e, w') =>
    (Normal tt,
     w' ++ [console (error_parsing_invoice e);
            reply 500
              (FailureReport "Failed to parse invoice data from text." e)])
  end.
Proof.
  unfold parseInvoiceFromText.respond, try_catch, bind, emit.
  destruct (parseInvoiceFromText.parsedData text w) as [[v|e] w'].
  - reflexivity.
  - rewrite <- app_assoc. reflexivity.
Qed.

Lemma dashboard_respond_run text w :
  getDashboardSummary.respond text w =
  match getDashboardSummary.parsedData text
          (w ++ [console (log_raw_response text)]) with
  | (Normal v, w') => (Normal tt, w' ++ [reply 200 (Data v)])
  | (Throw e, w') =>
    (Normal tt,
     w' ++ [console (error_dashboard_summary e);
            reply 500
              (FailureReport "Failed to generate dashboard insights." e)])
  end.
Proof.
  unfold getDashboardSummary.respond, try_catch, bind, emit.
  destruct (getDashboardSummary.parsedData text _) as [[v|e] w'].
  - reflexivity.
  - rewrite <- app_assoc. reflexivity.
Qed.

Lemma extract_run text :
  extract text =
  match JSON.parse text with
  | Some v => Success v
  | None =>
    match extraction_span text with
    | None => Failure NoJsonFound
    | Some m0 =>
      match JSON.parse m0 with
      | Some v => Success v
      | None => Failure MalformedJson
      end
    end
  end.
Proof.
  unfold extract, result_of. rewrite invoice_parsedData_run, exec_brace_pattern.
  destruct (JSON.parse text); [reflexivity|].
  destruct (extraction_span text) as [m0|]; [|reflexivity].
  simpl. destruct (JSON.parse m0); reflexivity.
Qed.

Lemma replies_app w1 w2 : replies (w1 ++ w2) = replies w1 ++ replies w2.
Proof.
  induction w1 as [|e w1 IH]; [reflexivity|].
  destruct e; simpl; rewrite ?IH; reflexivity.
Qed.

(** * The properties the specification states *)

(** C1. When the direct parse fails and the text has a [{] later
    followed by a [}], the one fallback candidate handed to [JSON.parse]
    is the text from the first [{] to the last [}], both included, in
    both handlers; the block's value is what [JSON.parse] makes of that
    candidate.  For the text with two embedded objects the candidate
    spans both objects and the prose between them, is neither inner
    object, and does not parse. *)
Theorem fallback_candidate_is_first_open_to_last_close :
  (forall text : list N,
     JSON.parse text = None -> has_brace_span text ->
     exists i j : nat,
       first_at Ch.lbrace text i /\ last_at Ch.rbrace text j /\ (i < j)%nat /\
       let candidate := slice i (S j) text in
       parse_attempts (events_of (parseInvoiceFromText.parsedData text))
         = [text; candidate] /\
       result_of (parseInvoiceFromText.parsedData text)
         = lift_parse (JSON.parse candidate) /\
       parse_attempts (events_of (getDashboardSummary.parsedData text))
         = [text; candidate] /\
       result_of (getDashboardSummary.parsedData text)
         = Normal (default invalid_format_insights (JSON.parse candidate))) /\
  (let text := lit "prefix {'a':1} middle {'b':2} suffix" in
   let candidate := lit "{'a':1} middle {'b':2}" in
   JSON.parse text = None /\
   parse_attempts (events_of (parseInvoiceFromText.parsedData text))
     = [text; candidate] /\
   parse_attempts (events_of (getDashboardSummary.parsedData text))
     = [text; candidate] /\
   candidate <> lit "{'a':1}" /\ candidate <> lit "{'b':2}" /\
   JSON.parse candidate = None /\
   extract text = Failure MalformedJson).
Proof.
  split.
  - intros text Hdirect Hspan.
    destruct (extraction_span_Some text Hspan) as (i & j & Hi & Hj & Hij & E).
    exists i, j. split; [exact Hi|]. split; [exact Hj|]. split; [exact Hij|].
    unfold events_of, result_of.
    rewrite invoice_parsedData_run, dashboard_parsedData_run, Hdirect,
      exec_brace_pattern, E.
    cbn zeta. destruct (JSON.parse (slice i (S j) text)); repeat split.
  - cbn zeta. repeat split; try (vm_compute; reflexivity); vm_compute; discriminate.
Qed.

Lemma fallback_candidate_witness :
  let text := lit "prefix {'a':1} middle {'b':2} suffix" in
  exists i j : nat,
    first_at Ch.lbrace text i /\ last_at Ch.rbrace text j /\ (i < j)%nat /\
    parse_attempts (events_of (parseInvoiceFromText.parsedData text))
      = [text; slice i (S j) text].
Proof.
  intros text.
  destruct (proj1 fallback_candidate_is_first_open_to_last_close text)
    as (i & j & Hi & Hj & Hij & Ha & _).
  - vm_compute. reflexivity.
  - exists 7%nat, 28%nat. split; [lia|]. split; reflexivity.
  - exists i, j. auto.
Defined.

(** C2, as stated, fails in [parseInvoiceFromText]: the block of lines
    55 to 62 does not turn its failures into a value.  On the empty text
    it ends with the [Error] thrown at line 60, on a span that does not
    parse with the [SyntaxError] of line 61; the exception leaves the
    block and reaches the [catch] of the handler, line 65, whose console
    line shows it. *)
Lemma invoice_block_ends_by_throwing :
  result_of (parseInvoiceFromText.parsedData []) = Throw no_valid_json /\
  result_of (parseInvoiceFromText.parsedData (lit "{'a': }"))
    = Throw SyntaxError /\
  events_of (parseInvoiceFromText.respond [])
    = [call_parse []; call_match [];
       console (error_parsing_invoice no_valid_json);
       reply 500
         (FailureReport "Failed to parse invoice data from text."
            no_valid_json)].
Proof. repeat split; vm_compute; reflexivity. Qed.

(** C2, amended.  No parse error leaves a handler as an exception.  The
    block of [parseInvoiceFromText] returns the value of the text, or of
    the match, when one parses, and otherwise ends by throwing: the
    [Error] of line 60 when the pattern matches nothing, the
    [SyntaxError] of line 61 when the match does not parse.  The [catch]
    of the handler receives the exception and replies 500 with it, so
    the handler ends normally with exactly one reply.  The block of
    [getDashboardSummary] never throws: each of the three failures ends
    in a value, parsed or placeholder, and the handler replies 200 with
    it. *)
Theorem parse_errors_are_caught_by_the_handlers (text : list N) (w : world) :
  fst (parseInvoiceFromText.parsedData text w)
    = match JSON.parse text with
      | Some v => Normal v
      | None =>
        match RegExp.exec brace_pattern text with
        | None => Throw no_valid_json
        | Some m => lift_parse (JSON.parse m)
        end
      end /\
  (exists evs : list event,
     parseInvoiceFromText.respond text w = (Normal tt, w ++ evs) /\
     replies evs =
       [match fst (parseInvoiceFromText.parsedData text w) with
        | Normal v => (200%nat, Data v)
        | Throw e => invoice_failure e
        end]) /\
  (exists evs : list event,
     getDashboardSummary.parsedData text w
       = (Normal
            match JSON.parse text with
            | Some v => v
            | None =>
              match RegExp.exec brace_pattern text with
              | None => no_insights
              | Some m => default invalid_format_insights (JSON.parse m)
              end
            end,
          w ++ evs)) /\
  (exists (v : json) (evs : list event),
     fst (getDashboardSummary.parsedData text w) = Normal v /\
     getDashboardSummary.respond text w = (Normal tt, w ++ evs) /\
     replies evs = [(200%nat, Data v)]).
Proof.
  split; [|split; [|split]].
  - rewrite invoice_parsedData_run.
    destruct (JSON.parse text) as [v|]; [reflexivity|].
    destruct (RegExp.exec brace_pattern text) as [m0|]; reflexivity.
  - rewrite invoice_respond_run, invoice_parsedData_run.
    destruct (JSON.parse text) as [v|].
    { eexists. rewrite <- app_assoc. split; reflexivity. }
    destruct (RegExp.exec brace_pattern text) as [m0|].
    + destruct (JSON.parse m0) as [v|]; simpl;
        eexists; rewrite <- app_assoc; split; reflexivity.
    + eexists. rewrite <- app_assoc. split; reflexivity.
  - rewrite dashboard_parsedData_run.
    destruct (JSON.parse text) as [v|]; [eauto|].
    destruct (RegExp.exec brace_pattern text) as [m0|]; [|eauto].
    destruct (JSON.parse m0) as [v|]; eauto.
  - rewrite dashboard_respond_run, !dashboard_parsedData_run.
    destruct (JSON.parse text) as [v|].
    { exists v. eexists. rewrite <- !app_assoc. repeat split. }
    destruct (RegExp.exec brace_pattern text) as [m0|].
    + destruct (JSON.parse m0) as [v|];
        eexists; eexists; rewrite <- !app_assoc; repeat split.
    + eexists. eexists. rewrite <- !app_assoc. repeat split.
Qed.

(** C3. A text that is valid JSON as a whole is parsed directly: the
    outcome is [Success] of its value, in both handlers the block returns
    that value, and the only call made is the one [JSON.parse] of the
    whole text (the pattern is not tried). *)
Theorem valid_json_is_parsed_directly (s : list N) (v : json) :
  JSON.parse s = Some v ->
  extract s = Success v /\
  result_of (parseInvoiceFromText.parsedData s) = Normal v /\
  events_of (parseInvoiceFromText.parsedData s) = [call_parse s] /\
  result_of (getDashboardSummary.parsedData s) = Normal v /\
  events_of (getDashboardSummary.parsedData s) = [call_parse s].
Proof.
  intros Hv. unfold events_of, result_of.
  rewrite extract_run, invoice_parsedData_run, dashboard_parsedData_run, Hv.
  repeat split.
Qed.

Lemma valid_json_witness :
  extract (lit "{'a':1}") = Success (JObject {[ lit "a" := JNumber 1 0 ]}) /\
  events_of (parseInvoiceFromText.parsedData (lit "{'a':1}"))
    = [call_parse (lit "{'a':1}")].
Proof.
  destruct (valid_json_is_parsed_directly (lit "{'a':1}")
              (JObject {[ lit "a" := JNumber 1 0 ]}))
    as (H1 & _ & H3 & _).
  - vm_compute. reflexivity.
  - split; [exact H1 | exact H3].
Defined.

(** C4. When the direct parse fails and the text has no [{] later
    followed by a [}], the outcome is [NoJsonFound]: the block of
    [parseInvoiceFromText] throws the [Error] of line 60 without a second
    parse, and the block of [getDashboardSummary] warns and returns the
    placeholder of line 198.  This covers the empty text and every text
    without braces whose direct parse fails. *)
Theorem no_span_is_NoJsonFound :
  (forall text : list N,
     JSON.parse text = None -> ~ has_brace_span text ->
     extract text = Failure NoJsonFound /\
     parseInvoiceFromText.parsedData text []
       = (Throw no_valid_json, [call_parse text; call_match text]) /\
     getDashboardSummary.parsedData text []
       = (Normal no_insights,
          [call_parse text; call_match text; console warn_no_valid_json])) /\
  extract [] = Failure NoJsonFound /\
  (forall text : list N,
     JSON.parse text = None -> brace_free text ->
     extract text = Failure NoJsonFound).
Proof.
  assert (forall text : list N,
            JSON.parse text = None -> ~ has_brace_span text ->
            extract text = Failure NoJsonFound) as Hgen.
  { intros text Hdirect Hnone. apply extraction_span_None in Hnone.
    rewrite extract_run, Hdirect, Hnone. reflexivity. }
  split; [|split].
  - intros text Hdirect Hnone. split; [apply Hgen; assumption|].
    apply extraction_span_None in Hnone.
    rewrite invoice_parsedData_run, dashboard_parsedData_run, Hdirect,
      exec_brace_pattern, Hnone.
    split; reflexivity.
  - apply Hgen; [reflexivity|]. intros (i & j & _ & Hi & _).
    rewrite lookup_nil in Hi. discriminate.
  - intros text Hdirect Hfree. apply Hgen; [exact Hdirect|].
    intros (i & j & _ & Hi & _). exact (proj1 (Hfree i) Hi).
Qed.

Lemma no_span_witness : extract (lit "no braces here") = Failure NoJsonFound.
Proof.
  apply (proj1 no_span_is_NoJsonFound (lit "no braces here")).
  - vm_compute. reflexivity.
  - apply extraction_span_None. vm_compute. reflexivity.
Defined.

(** C5. When the direct parse fails and the text from the first [{] to
    the last [}] exists but is not valid JSON, the outcome is
    [MalformedJson] and no value is produced: the block of
    [parseInvoiceFromText] ends with the [SyntaxError] of the second
    parse, and the block of [getDashboardSummary] warns and returns the
    placeholder of line 194.  The text made of an opening brace, the
    name a, a colon, a space and a closing brace is such a text. *)
Theorem malformed_span_is_MalformedJson :
  (forall (text : list N) (i j : nat),
     JSON.parse text = None ->
     first_at Ch.lbrace text i -> last_at Ch.rbrace text j -> (i < j)%nat ->
     JSON.parse (slice i (S j) text) = None ->
     extract text = Failure MalformedJson /\
     (forall v : json, extract text <> Success v) /\
     parseInvoiceFromText.parsedData text []
       = (Throw SyntaxError,
          [call_parse text; call_match text; call_parse (slice i (S j) text)]) /\
     getDashboardSummary.parsedData text []
       = (Normal invalid_format_insights,
          [call_parse text; call_match text; call_parse (slice i (S j) text);
           console warn_invalid_substring])) /\
  extract (lit "{'a': }") = Failure MalformedJson.
Proof.
  split; [|vm_compute; reflexivity].
  intros text i j Hdirect Hi Hj Hij Hbad.
  assert (extraction_span text = Some (slice i (S j) text)) as E.
  { destruct (extraction_span_Some text) as (i' & j' & Hi' & Hj' & _ & E).
    - exists i, j. split; [exact Hij|]. split; [apply Hi | apply Hj].
    - rewrite (first_at_unique _ _ _ _ Hi Hi'), (last_at_unique _ _ _ _ Hj Hj').
      exact E. }
  assert (extract text = Failure MalformedJson) as Hx.
  { rewrite extract_run, Hdirect, E, Hbad. reflexivity. }
  split; [exact Hx|]. split; [intros v; rewrite Hx; discriminate|].
  rewrite invoice_parsedData_run, dashboard_parsedData_run, Hdirect,
    exec_brace_pattern, E, Hbad.
  split; reflexivity.
Qed.

Lemma malformed_span_witness :
  extract (lit "oops {'a': } sorry") = Failure MalformedJson.
Proof.
  apply (proj1 malformed_span_is_MalformedJson (lit "oops {'a': } sorry")
           5%nat 11%nat).
  - vm_compute. reflexivity.
  - apply indexOf_Some. vm_compute. reflexivity.
  - apply lastIndexOf_Some. vm_compute. reflexivity.
  - lia.
  - vm_compute. reflexivity.
Defined.

(** C6. The object wrapped in prose, with the words Sure! before it and
    Hope that helps after it: the direct parse fails, the pattern matches
    the object, the second parse gives the object with the one property a
    equal to 1, and [parseInvoiceFromText] replies with it, status 200. *)
Theorem prose_wrapped_object_is_recovered :
  let text := lit "Sure! {'a':1} Hope that helps" in
  let value := JObject {[ lit "a" := JNumber 1 0 ]} in
  JSON.parse text = None /\
  extract text = Success value /\
  parseInvoiceFromText.parsedData text []
    = (Normal value,
       [call_parse text; call_match text; call_parse (lit "{'a':1}")]) /\
  replies (events_of (parseInvoiceFromText.respond text))
    = [(200%nat, Data value)].
Proof.
  intros text value.
  assert (JSON.parse text = None) as Hdirect by (vm_compute; reflexivity).
  assert (extraction_span text = Some (lit "{'a':1}")) as Hspan
    by (vm_compute; reflexivity).
  assert (JSON.parse (lit "{'a':1}") = Some value) as Hvalue
    by (vm_compute; reflexivity).
  split; [exact Hdirect|]. split; [|split].
  - rewrite extract_run, Hdirect, Hspan, Hvalue. reflexivity.
  - rewrite invoice_parsedData_run, Hdirect, exec_brace_pattern, Hspan, Hvalue.
    reflexivity.
  - unfold events_of.
    rewrite invoice_respond_run, invoice_parsedData_run, Hdirect,
      exec_brace_pattern, Hspan, Hvalue.
    reflexivity.
Qed.

(** C8. The recovery looks for an object only.  When the text is not
    valid JSON as a whole, holds somewhere a valid JSON value that is not
    an object, and has no [{] later followed by a [}], the outcome is
    [NoJsonFound]: the only text handed to [JSON.parse] is the whole
    text, and the embedded value is not recovered.  The text
    [here: [1,2]], which holds the array of 1 and 2, is such a text. *)
Theorem non_object_values_are_not_recovered :
  (forall (text inner : list N) (v : json),
     JSON.parse text = None ->
     occurs_in inner text -> JSON.parse inner = Some v -> is_object v = false ->
     ~ has_brace_span text ->
     extract text = Failure NoJsonFound /\
     parseInvoiceFromText.parsedData text []
       = (Throw no_valid_json, [call_parse text; call_match text]) /\
     getDashboardSummary.parsedData text []
       = (Normal no_insights,
          [call_parse text; call_match text; console warn_no_valid_json])) /\
  (let text := lit "here: [1,2]" in
   let inner := lit "[1,2]" in
   JSON.parse text = None /\
   occurs_in inner text /\
   JSON.parse inner = Some (JArray [JNumber 1 0; JNumber 2 0]) /\
   extract text = Failure NoJsonFound /\
   parse_attempts (events_of (parseInvoiceFromText.parsedData text)) = [text]).
Proof.
  split.
  - intros text inner v Hdirect _ _ _ Hnone.
    apply extraction_span_None in Hnone.
    rewrite extract_run, invoice_parsedData_run, dashboard_parsedData_run,
      Hdirect, exec_brace_pattern, Hnone.
    repeat split.
  - cbn zeta. split; [vm_compute; reflexivity|]. split.
    { exists (lit "here: "), []. reflexivity. }
    repeat split; vm_compute; reflexivity.
Qed.

Lemma non_object_witness :
  extract (lit "here: [1,2]") = Failure NoJsonFound.
Proof.
  apply (proj1 non_object_values_are_not_recovered
           (lit "here: [1,2]") (lit "[1,2]") (JArray [JNumber 1 0; JNumber 2 0])).
  - vm_compute. reflexivity.
  - exists (lit "here: "), []. reflexivity.
  - vm_compute. reflexivity.
  - reflexivity.
  - apply extraction_span_None. vm_compute. reflexivity.
Defined.

(** The two ways of saying that no span exists agree. *)
Lemma closes_before_opens_iff text :
  closes_before_opens text <-> ~ has_brace_span text.
Proof.
  split.
  - intros H (i & j & Hij & Hi & Hj). specialize (H i j Hi Hj). lia.
  - intros H i j Hi Hj.
    destruct (Nat.lt_trichotomy i j) as [Hlt | [-> | Hgt]].
    + exfalso. apply H. exists i, j. auto.
    + rewrite Hi in Hj. discriminate.
    + exact Hgt.
Qed.

(** C9, as stated, fails: the quoted text below has its only [}] before
    its only [{], yet it is a JSON string as a whole, so the direct parse
    succeeds and the outcome is [Success], not [NoJsonFound]. *)
Lemma reversed_braces_in_a_json_string :
  let text := lit "'} text {'" in
  closes_before_opens text /\
  extract text = Success (JString (lit "} text {")) /\
  extract text <> Failure NoJsonFound.
Proof.
  cbn zeta. split; [|split].
  - apply closes_before_opens_iff, extraction_span_None. vm_compute. reflexivity.
  - vm_compute. reflexivity.
  - vm_compute. discriminate.
Qed.

(** C9, amended.  When the direct parse fails and every [}] of the text
    occurs strictly before its first [{], the outcome is [NoJsonFound]:
    the pattern matches nothing, although both braces may be present, as
    in [} text {]. *)
Theorem reversed_braces_are_NoJsonFound :
  (forall text : list N,
     JSON.parse text = None -> closes_before_opens text ->
     RegExp.exec brace_pattern text = None /\
     extract text = Failure NoJsonFound /\
     parseInvoiceFromText.parsedData text []
       = (Throw no_valid_json, [call_parse text; call_match text])) /\
  extract (lit "} text {") = Failure NoJsonFound.
Proof.
  split; [|vm_compute; reflexivity].
  intros text Hdirect Hrev.
  apply closes_before_opens_iff, extraction_span_None in Hrev.
  rewrite extract_run, invoice_parsedData_run, Hdirect, exec_brace_pattern, Hrev.
  repeat split.
Qed.

Lemma reversed_braces_witness :
  extract (lit "} text {") = Failure NoJsonFound.
Proof.
  apply (proj1 reversed_braces_are_NoJsonFound (lit "} text {")).
  - vm_compute. reflexivity.
  - apply closes_before_opens_iff, extraction_span_None. vm_compute. reflexivity.
Defined.

(** C10. [getDashboardSummary] absorbs both failures.  When the direct
    parse of the answer fails, the handler ends normally and its one
    reply has status 200: with the placeholder of line 198 when no span
    exists, with the placeholder of line 194 when the span does not
    parse.  No reply of status 500 is sent. *)
Theorem dashboard_absorbs_extraction_failures (text : list N) (w : world) :
  JSON.parse text = None ->
  (~ has_brace_span text ->
   getDashboardSummary.respond text w
     = (Normal tt,
        w ++ [console (log_raw_response text); call_parse text;
              call_match text; console warn_no_valid_json;
              reply 200 (Data no_insights)])) /\
  (forall i j : nat,
     first_at Ch.lbrace text i -> last_at Ch.rbrace text j -> (i < j)%nat ->
     JSON.parse (slice i (S j) text) = None ->
     getDashboardSummary.respond text w
       = (Normal tt,
          w ++ [console (log_raw_response text); call_parse text;
                call_match text; call_parse (slice i (S j) text);
                console warn_invalid_substring;
                reply 200 (Data invalid_format_insights)])).
Proof.
  intros Hdirect.
  rewrite dashboard_respond_run, dashboard_parsedData_run, Hdirect,
    exec_brace_pattern.
  split.
  - intros Hnone. apply extraction_span_None in Hnone. rewrite Hnone.
    rewrite <- !app_assoc. reflexivity.
  - intros i j Hi Hj Hij Hbad.
    destruct (extraction_span_Some text) as (i' & j' & Hi' & Hj' & _ & E).
    { exists i, j. split; [exact Hij|]. split; [apply Hi | apply Hj]. }
    rewrite <- (first_at_unique _ _ _ _ Hi Hi'),
      <- (last_at_unique _ _ _ _ Hj Hj') in E.
    rewrite E, Hbad, <- !app_assoc. reflexivity.
Qed.

Lemma dashboard_absorbs_witness :
  replies (snd (getDashboardSummary.respond (lit "} text {") []))
    = [(200%nat, Data no_insights)] /\
  replies (snd (getDashboardSummary.respond (lit "{'a': }") []))
    = [(200%nat, Data invalid_format_insights)].
Proof.
  split.
  - destruct (dashboard_absorbs_extraction_failures (lit "} text {") [])
      as [H _]; [vm_compute; reflexivity|].
    rewrite H; [reflexivity|].
    apply extraction_span_None. vm_compute. reflexivity.
  - destruct (dashboard_absorbs_extraction_failures (lit "{'a': }") [])
      as [_ H]; [vm_compute; reflexivity|].
    rewrite (H 0%nat 6%nat); [reflexivity| | |lia|vm_compute; reflexivity].
    + apply indexOf_Some. vm_compute. reflexivity.
    + apply lastIndexOf_Some. vm_compute. reflexivity.
Defined.

(** * Further properties of the extraction *)

(** ** More steps never change a reading *)

Lemma readers_mono fuel :
  (forall s fuel', (fuel <= fuel')%nat ->
     JSON.value fuel s <> JSON.Fuel -> JSON.value fuel' s = JSON.value fuel s) /\
  (forall s acc fuel', (fuel <= fuel')%nat ->
     JSON.elements fuel s acc <> JSON.Fuel ->
     JSON.elements fuel' s acc = JSON.elements fuel s acc) /\
  (forall s acc fuel', (fuel <= fuel')%nat ->
     JSON.members fuel s acc <> JSON.Fuel ->
     JSON.members fuel' s acc = JSON.members fuel s acc).
Proof.
  induction fuel as [|fuel (IHv & IHe & IHm)].
  { repeat split; intros; simpl in *; congruence. }
  split; [|split].
  - intros s [|fuel'] Hle; [lia|]. rewrite !value_S.
    destruct (JSON.skip_ws s) as [|c r]; [reflexivity|].
    destruct (c =? Ch.lbrace).
    { destruct (JSON.skip_ws r) as [|c' r']; [reflexivity|].
      destruct (c' =? Ch.rbrace); [reflexivity|]. apply IHm. lia. }
    destruct (c =? Ch.lbracket); [|reflexivity].
    destruct (JSON.skip_ws r) as [|c' r']; [reflexivity|].
    destruct (c' =? Ch.rbracket); [reflexivity|]. apply IHe. lia.
  - intros s acc [|fuel'] Hle; [lia|]. rewrite !elements_S. intros Hf.
    assert (JSON.value fuel s <> JSON.Fuel) as Hv.
    { intros E. rewrite E in Hf. congruence. }
    rewrite (IHv s fuel') by (assumption || lia).
    destruct (JSON.value fuel s) as [v r| |]; try reflexivity.
    destruct (JSON.skip_ws r) as [|c r']; [reflexivity|].
    destruct (c =? Ch.comma); [|reflexivity]. apply IHe; [lia | exact Hf].
  - intros s acc [|fuel'] Hle; [lia|]. rewrite !members_S.
    destruct (JSON.skip_ws s) as [|c r]; [reflexivity|].
    destruct (c =? Ch.quote); [|reflexivity].
    destruct (JSON.string_body r) as [[k r1]|]; [|reflexivity].
    destruct (JSON.skip_ws r1) as [|c1 r2]; [reflexivity|].
    destruct (c1 =? Ch.colon); [|reflexivity]. intros Hf.
    assert (JSON.value fuel r2 <> JSON.Fuel) as Hv.
    { intros E. rewrite E in Hf. congruence. }
    rewrite (IHv r2 fuel') by (assumption || lia).
    destruct (JSON.value fuel r2) as [v r3| |]; try reflexivity.
    destruct (JSON.skip_ws r3) as [|c3 r4]; [reflexivity|].
    destruct (c3 =? Ch.comma); [|reflexivity]. apply IHm; [lia | exact Hf].
Qed.

(** Any number of steps from [2 * length s + 1] on reads the same. *)
Lemma value_enough fuel s :
  (2 * length s + 1 <= fuel)%nat ->
  JSON.value fuel s = JSON.value (2 * length s + 1) s.
Proof.
  intros Hle. apply (proj1 (readers_mono _)); [exact Hle | apply value_fuel].
Qed.

(** ** What follows a value does not change its reading *)

Lemma skip_ws_app_cons s c r t :
  JSON.skip_ws s = c :: r -> JSON.skip_ws (s ++ t) = c :: r ++ t.
Proof.
  induction s as [|x s IH]; simpl; [discriminate|].
  destruct (JSON.is_ws x); [exact IH|]. intros [= <- <-]. reflexivity.
Qed.

Lemma skip_ws_app_blank s t :
  JSON.skip_ws s = [] -> JSON.skip_ws (s ++ t) = JSON.skip_ws t.
Proof.
  induction s as [|x s IH]; simpl; [reflexivity|].
  destruct (JSON.is_ws x); [exact IH | discriminate].
Qed.

Lemma string_body_app s str out t :
  JSON.string_body s = Some (str, out) ->
  JSON.string_body (s ++ t) = Some (str, out ++ t).
Proof.
  remember (length s) as n eqn:Hn. revert s str out Hn.
  induction n as [n IH] using lt_wf_ind. intros s str out Hn.
  destruct s as [|c rest]; simpl; [discriminate|].
  destruct (c =? Ch.quote).
  { intros [= <- <-]. reflexivity. }
  destruct (c =? Ch.backslash).
  - destruct rest as [|e rest1]; [discriminate|]. simpl.
    destruct (e =? 117).
    + destruct rest1 as [|a [|b [|c' [|d rest2]]]]; try discriminate. simpl.
      destruct (JSON.hex4 a b c' d); [|discriminate].
      destruct (JSON.string_body rest2) as [[str' out']|] eqn:E; [|discriminate].
      intros [= <- <-].
      rewrite (IH (length rest2)) with (str := str') (out := out');
        [reflexivity | simpl in Hn; lia | reflexivity | exact E].
    + destruct (JSON.escape e); [|discriminate].
      destruct (JSON.string_body rest1) as [[str' out']|] eqn:E; [|discriminate].
      intros [= <- <-].
      rewrite (IH (length rest1)) with (str := str') (out := out');
        [reflexivity | simpl in Hn; lia | reflexivity | exact E].
  - destruct (c <? 32); [discriminate|].
    destruct (JSON.string_body rest) as [[str' out']|] eqn:E; [|discriminate].
    intros [= <- <-].
    rewrite (IH (length rest)) with (str := str') (out := out');
      [reflexivity | simpl in Hn; lia | reflexivity | exact E].
Qed.

Lemma digits_app s ds out t :
  JSON.digits s = (ds, out) ->
  (out = [] -> prolongs_number t = false) ->
  JSON.digits (s ++ t) = (ds, out ++ t).
Proof.
  revert ds out. induction s as [|c s IH]; intros ds out; simpl.
  - intros [= <- <-] Ht. specialize (Ht eq_refl).
    destruct t as [|x t]; [reflexivity|]. simpl in *.
    destruct (JSON.is_digit x); [discriminate | reflexivity].
  - destruct (JSON.is_digit c).
    + destruct (JSON.digits s) as [ds' out'] eqn:E. intros [= <- <-] Ht.
      rewrite (IH ds' out' eq_refl Ht). reflexivity.
    + intros [= <- <-] _. reflexivity.
Qed.

Lemma int_part_app s ds out t :
  JSON.int_part s = Some (ds, out) ->
  (out = [] -> prolongs_number t = false) ->
  JSON.int_part (s ++ t) = Some (ds, out ++ t).
Proof.
  destruct s as [|c s]; [discriminate|]. unfold JSON.int_part.
  simpl app. cbn beta iota.
  destruct (c =? Ch.zero).
  { intros [= <- <-] _. reflexivity. }
  destruct (JSON.is_digit c); [|discriminate].
  intros E0 Ht.
  assert (JSON.digits (c :: s) = (ds, out)) as E by congruence.
  change (c :: s ++ t) with ((c :: s) ++ t).
  rewrite (digits_app _ _ _ _ E Ht). reflexivity.
Qed.

Lemma frac_part_app s ds out t :
  JSON.frac_part s = Some (ds, out) ->
  (out = [] -> prolongs_number t = false) ->
  JSON.frac_part (s ++ t) = Some (ds, out ++ t).
Proof.
  destruct s as [|c s]; simpl.
  - intros [= <- <-] Ht. specialize (Ht eq_refl).
    destruct t as [|x t]; [reflexivity|]. simpl in *.
    destruct (x =? Ch.dot); [|reflexivity].
    rewrite !orb_true_r in Ht. simpl in Ht.
    destruct (JSON.is_digit x); discriminate.
  - destruct (c =? Ch.dot).
    + destruct (JSON.digits s) as [[|d ds'] out'] eqn:E; [discriminate|].
      intros [= <- <-] Ht. rewrite (digits_app _ _ _ _ E Ht). reflexivity.
    + intros [= <- <-] _. reflexivity.
Qed.

Lemma exp_part_app s ex out t :
  JSON.exp_part s = Some (ex, out) ->
  (out = [] -> prolongs_number t = false) ->
  JSON.exp_part (s ++ t) = Some (ex, out ++ t).
Proof.
  destruct s as [|c s]; simpl.
  - intros [= <- <-] Ht. specialize (Ht eq_refl).
    destruct t as [|x t]; [reflexivity|]. simpl in *.
    destruct (JSON.is_digit x); [discriminate|].
    destruct (x =? Ch.dot); [discriminate|]. simpl in Ht. rewrite Ht.
    reflexivity.
  - destruct ((c =? 101) || (c =? 69)).
    + destruct s as [|g s2]; [simpl; discriminate|]. simpl app. cbn beta iota.
      destruct (g =? Ch.minus); [|destruct (g =? Ch.plus)].
      * destruct (JSON.digits s2) as [[|d ds'] out'] eqn:E; [discriminate|].
        intros [= <- <-] Ht. rewrite (digits_app _ _ _ _ E Ht). reflexivity.
      * destruct (JSON.digits s2) as [[|d ds'] out'] eqn:E; [discriminate|].
        intros [= <- <-] Ht. rewrite (digits_app _ _ _ _ E Ht). reflexivity.
      * destruct (JSON.digits (g :: s2)) as [[|d ds'] out'] eqn:E; [discriminate|].
        intros [= <- <-] Ht. change (g :: s2 ++ t) with ((g :: s2) ++ t).
        rewrite (digits_app _ _ _ _ E Ht). reflexivity.
    + intros [= <- <-] _. reflexivity.
Qed.

Lemma number_app s v out t :
  JSON.number s = Some (v, out) ->
  (out = [] -> prolongs_number t = false) ->
  JSON.number (s ++ t) = Some (v, out ++ t).
Proof.
  unfold JSON.number. intros H Ht.
  assert (forall neg s0,
    match JSON.int_part s0 with
    | Some (ids, s1) =>
      match JSON.frac_part s1 with
      | Some (fds, s2) =>
        match JSON.exp_part s2 with
        | Some (ex, s3) => Some (JSON.decimal neg ids fds ex, s3)
        | None => None
        end
      | None => None
      end
    | None => None
    end = Some (v, out) ->
    match JSON.int_part (s0 ++ t) with
    | Some (ids, s1) =>
      match JSON.frac_part s1 with
      | Some (fds, s2) =>
        match JSON.exp_part s2 with
        | Some (ex, s3) => Some (JSON.decimal neg ids fds ex, s3)
        | None => None
        end
      | None => None
      end
    | None => None
    end = Some (v, out ++ t)) as Hcore.
  { intros neg s0.
    destruct (JSON.int_part s0) as [[ids s1]|] eqn:E1; [|discriminate].
    destruct (JSON.frac_part s1) as [[fds s2]|] eqn:E2; [|discriminate].
    destruct (JSON.exp_part s2) as [[ex s3]|] eqn:E3; [|discriminate].
    intros [= <- <-].
    pose proof (frac_part_length _ _ _ E2) as L2.
    pose proof (exp_part_length _ _ _ E3) as L3.
    assert (s2 = [] -> s3 = []) as H32.
    { intros ->. destruct s3; [reflexivity | simpl in L3; lia]. }
    assert (s1 = [] -> s2 = []) as H21.
    { intros ->. destruct s2; [reflexivity | simpl in L2; lia]. }
    rewrite (int_part_app _ _ _ t E1) by auto.
    rewrite (frac_part_app _ _ _ t E2) by auto.
    rewrite (exp_part_app _ _ _ t E3) by auto.
    reflexivity. }
  destruct s as [|c s'].
  - (* the empty text holds no number *)
    exfalso. simpl in H. discriminate.
  - simpl app. cbn beta iota. revert H.
    destruct (c =? Ch.minus); intros H.
    + apply Hcore. exact H.
    + change (c :: s' ++ t) with ((c :: s') ++ t). apply Hcore. exact H.
Qed.

Lemma number_is_number s v out :
  JSON.number s = Some (v, out) -> is_number v = true.
Proof.
  unfold JSON.number.
  destruct (match s with
            | [] => (false, [])
            | c :: s' => if c =? Ch.minus then (true, s') else (false, s)
            end) as [neg s0].
  destruct (JSON.int_part s0) as [[ids s1]|]; [|discriminate].
  destruct (JSON.frac_part s1) as [[fds s2]|]; [|discriminate].
  destruct (JSON.exp_part s2) as [[ex s3]|]; [|discriminate].
  intros [= <- _]. unfold JSON.decimal.
  destruct (JSON.strip_zeros _ _) as [rev_ds e].
  destruct (_ =? _)%Z; reflexivity.
Qed.

Lemma word_app w s out t :
  JSON.word w s = Some out -> JSON.word w (s ++ t) = Some (out ++ t).
Proof.
  revert s. induction w as [|a w IH]; intros [|c s]; simpl;
    try discriminate; try (intros [= <-]; reflexivity).
  destruct (a =? c); [apply IH | discriminate].
Qed.

Lemma word_app_None w s t :
  JSON.word w s = None -> (length w <= length s)%nat ->
  JSON.word w (s ++ t) = None.
Proof.
  revert s. induction w as [|a w IH]; intros [|c s]; simpl;
    try discriminate; try lia.
  destruct (a =? c); [|reflexivity]. intros H L. apply IH; [exact H | lia].
Qed.

Lemma literal_app s v out t :
  JSON.literal s = Some (v, out) -> JSON.literal (s ++ t) = Some (v, out ++ t).
Proof.
  unfold JSON.literal.
  destruct (JSON.word (lit "null") s) as [o1|] eqn:E1.
  { intros [= <- <-]. rewrite (word_app _ _ _ t E1). reflexivity. }
  destruct (JSON.word (lit "true") s) as [o2|] eqn:E2.
  { intros [= <- <-]. pose proof (word_length _ _ _ E2) as L.
    rewrite (word_app_None _ _ t E1) by (simpl in *; lia).
    rewrite (word_app _ _ _ t E2). reflexivity. }
  destruct (JSON.word (lit "false") s) as [o3|] eqn:E3; [|discriminate].
  intros [= <- <-]. pose proof (word_length _ _ _ E3) as L.
  rewrite (word_app_None _ _ t E1) by (simpl in *; lia).
  rewrite (word_app_None _ _ t E2) by (simpl in *; lia).
  rewrite (word_app _ _ _ t E3). reflexivity.
Qed.

Lemma literal_not_number s v out :
  JSON.literal s = Some (v, out) -> is_number v = false.
Proof.
  unfold JSON.literal.
  destruct (JSON.word (lit "null") s); [intros [= <- _]; reflexivity|].
  destruct (JSON.word (lit "true") s); [intros [= <- _]; reflexivity|].
  destruct (JSON.word (lit "false") s); [intros [= <- _]; reflexivity|].
  discriminate.
Qed.

(** A text read as a value, an array body or an object body is read the
    same way with [t] after it, [t] being left unread; only a number that
    ends the text needs [t] not to prolong it. *)
Lemma readers_app fuel t :
  (forall s v r,
     JSON.value fuel s = JSON.Read v r ->
     (is_number v = true -> r = [] -> prolongs_number t = false) ->
     JSON.value fuel (s ++ t) = JSON.Read v (r ++ t)) /\
  (forall s acc v r,
     JSON.elements fuel s acc = JSON.Read v r ->
     JSON.elements fuel (s ++ t) acc = JSON.Read v (r ++ t)) /\
  (forall s acc v r,
     JSON.members fuel s acc = JSON.Read v r ->
     JSON.members fuel (s ++ t) acc = JSON.Read v (r ++ t)).
Proof.
  induction fuel as [|fuel (IHv & IHe & IHm)];
    [repeat split; intros; discriminate|].
  split; [|split].
  - intros s v r. rewrite !value_S.
    destruct (JSON.skip_ws s) as [|c r0] eqn:Es; [discriminate|].
    rewrite (skip_ws_app_cons _ _ _ t Es).
    destruct (c =? Ch.lbrace).
    { destruct (JSON.skip_ws r0) as [|c' r'] eqn:Er; [discriminate|].
      rewrite (skip_ws_app_cons _ _ _ t Er).
      destruct (c' =? Ch.rbrace).
      - intros [= <- <-] _. reflexivity.
      - intros H _. apply (IHm (c' :: r')). exact H. }
    destruct (c =? Ch.lbracket).
    { destruct (JSON.skip_ws r0) as [|c' r'] eqn:Er; [discriminate|].
      rewrite (skip_ws_app_cons _ _ _ t Er).
      destruct (c' =? Ch.rbracket).
      - intros [= <- <-] _. reflexivity.
      - intros H _. apply (IHe (c' :: r')). exact H. }
    destruct (c =? Ch.quote).
    { destruct (JSON.string_body r0) as [[str o]|] eqn:Eb; [|discriminate].
      intros [= <- <-] _. rewrite (string_body_app _ _ _ t Eb). reflexivity. }
    destruct ((c =? Ch.minus) || JSON.is_digit c).
    + destruct (JSON.number (c :: r0)) as [[v' o]|] eqn:En; [|discriminate].
      simpl. intros [= <- <-] Ht.
      change (c :: r0 ++ t) with ((c :: r0) ++ t).
      rewrite (number_app _ _ _ t En); [reflexivity|].
      apply Ht. exact (number_is_number _ _ _ En).
    + destruct (JSON.literal (c :: r0)) as [[v' o]|] eqn:El; [|discriminate].
      simpl. intros [= <- <-] _.
      change (c :: r0 ++ t) with ((c :: r0) ++ t).
      rewrite (literal_app _ _ _ t El). reflexivity.
  - intros s acc v r. rewrite !elements_S.
    destruct (JSON.value fuel s) as [v1 r1| |] eqn:Ev; try discriminate.
    destruct (JSON.skip_ws r1) as [|c r'] eqn:Er; [discriminate|].
    rewrite (IHv _ _ _ Ev).
    2:{ intros _ ->. simpl in Er. discriminate. }
    rewrite (skip_ws_app_cons _ _ _ t Er).
    destruct (c =? Ch.comma); [apply IHe|].
    destruct (c =? Ch.rbracket); [|discriminate].
    intros [= <- <-]. reflexivity.
  - intros s acc v r. rewrite !members_S.
    destruct (JSON.skip_ws s) as [|c r0] eqn:Es; [discriminate|].
    rewrite (skip_ws_app_cons _ _ _ t Es).
    destruct (c =? Ch.quote); [|discriminate].
    destruct (JSON.string_body r0) as [[k r1]|] eqn:Eb; [|discriminate].
    rewrite (string_body_app _ _ _ t Eb).
    destruct (JSON.skip_ws r1) as [|c1 r2] eqn:E1; [discriminate|].
    rewrite (skip_ws_app_cons _ _ _ t E1).
    destruct (c1 =? Ch.colon); [|discriminate].
    destruct (JSON.value fuel r2) as [v1 r3| |] eqn:Ev; try discriminate.
    destruct (JSON.skip_ws r3) as [|c3 r4] eqn:E3; [discriminate|].
    rewrite (IHv _ _ _ Ev).
    2:{ intros _ ->. simpl in E3. discriminate. }
    rewrite (skip_ws_app_cons _ _ _ t E3).
    destruct (c3 =? Ch.comma); [apply IHm|].
    destruct (c3 =? Ch.rbrace); [|discriminate].
    intros [= <- <-]. reflexivity.
Qed.

(** The body of an object is read as an object, and so is every value
    that starts with an opening brace. *)
Lemma members_is_object fuel :
  forall s acc v r,
    JSON.members fuel s acc = JSON.Read v r -> is_object v = true.
Proof.
  induction fuel as [|fuel IH]; intros s acc v r; [discriminate|].
  rewrite members_S.
  destruct (JSON.skip_ws s) as [|c r0]; [discriminate|].
  destruct (c =? Ch.quote); [|discriminate].
  destruct (JSON.string_body r0) as [[k r1]|]; [|discriminate].
  destruct (JSON.skip_ws r1) as [|c1 r2]; [discriminate|].
  destruct (c1 =? Ch.colon); [|discriminate].
  destruct (JSON.value fuel r2) as [v1 r3| |]; try discriminate.
  destruct (JSON.skip_ws r3) as [|c3 r4]; [discriminate|].
  destruct (c3 =? Ch.comma); [apply IH|].
  destruct (c3 =? Ch.rbrace); [|discriminate].
  intros [= <- _]. reflexivity.
Qed.

Lemma parse_Some text v :
  JSON.parse text = Some v <->
  exists r, JSON.value (2 * length text + 1) text = JSON.Read v r /\
            JSON.skip_ws r = [].
Proof.
  unfold JSON.parse.
  destruct (JSON.value (2 * length text + 1) text) as [v' r| |].
  - destruct (JSON.skip_ws r) as [|c r'] eqn:E; split.
    + intros [= <-]. eauto.
    + intros (r0 & [= <- <-] & _). reflexivity.
    + discriminate.
    + intros (r0 & [= <- <-] & E'). congruence.
  - split; [discriminate | intros (r & H & _); discriminate].
  - split; [discriminate | intros (r & H & _); discriminate].
Qed.

Lemma value_lbrace fuel s :
  JSON.value (S fuel) (Ch.lbrace :: s) =
  match JSON.skip_ws s with
  | [] => JSON.Bad
  | c' :: r' =>
    if c' =? Ch.rbrace then JSON.Read (JObject ∅) r'
    else JSON.members fuel (c' :: r') ∅
  end.
Proof. rewrite value_S. reflexivity. Qed.

Lemma parse_brace_is_object text v :
  head text = Some Ch.lbrace -> JSON.parse text = Some v -> is_object v = true.
Proof.
  intros Hh Hp. apply parse_Some in Hp as (r & Hv & _).
  destruct text as [|c s]; [discriminate|]. simpl in Hh. injection Hh as ->.
  replace (2 * length (Ch.lbrace :: s) + 1)%nat
    with (S (2 * length (Ch.lbrace :: s))) in Hv by lia.
  rewrite value_lbrace in Hv.
  destruct (JSON.skip_ws s) as [|c' r']; [discriminate|].
  destruct (c' =? Ch.rbrace).
  - injection Hv as <- _. reflexivity.
  - exact (members_is_object _ _ _ _ _ Hv).
Qed.

(** ** Consequences for [JSON.parse] *)

Lemma value_blank_prefix fuel ws s :
  blank ws -> JSON.value fuel (ws ++ s) = JSON.value fuel s.
Proof.
  intros Hb. destruct fuel as [|fuel]; [reflexivity|].
  rewrite !value_S, (skip_ws_app_blank _ _ Hb). reflexivity.
Qed.

Lemma blank_not_prolonging ws : blank ws -> prolongs_number ws = false.
Proof.
  unfold blank. destruct ws as [|c ws]; [reflexivity|]. simpl.
  destruct (JSON.is_ws c) eqn:Hc; [|discriminate]. intros _.
  unfold JSON.is_ws in Hc.
  destruct (N.eqb_spec c Ch.tab) as [->|_]; [reflexivity|].
  destruct (N.eqb_spec c Ch.lf) as [->|_]; [reflexivity|].
  destruct (N.eqb_spec c Ch.cr) as [->|_]; [reflexivity|].
  destruct (N.eqb_spec c Ch.space) as [->|_]; [reflexivity|].
  discriminate.
Qed.

(** White space around a valid text changes nothing. *)
Lemma parse_padded ws1 text ws2 v :
  blank ws1 -> blank ws2 ->
  JSON.parse text = Some v -> JSON.parse (ws1 ++ text ++ ws2) = Some v.
Proof.
  intros H1 H2 Hp. apply parse_Some in Hp as (r & Hv & Hr).
  apply parse_Some. exists (r ++ ws2). split.
  - rewrite value_blank_prefix by exact H1.
    rewrite <- (proj1 (readers_app _ ws2) _ _ _ Hv)
      by (intros _ _; apply blank_not_prolonging, H2).
    apply (proj1 (readers_mono _)).
    + rewrite !length_app. lia.
    + rewrite (proj1 (readers_app _ ws2) _ _ _ Hv)
        by (intros _ _; apply blank_not_prolonging, H2).
      discriminate.
  - rewrite (skip_ws_app_blank _ _ Hr). exact H2.
Qed.


(** A text that starts with prose is not valid. *)
Lemma parse_prose text : starts_with_prose text -> JSON.parse text = None.
Proof.
  intros (c & r & Es & Hc). unfold JSON.parse.
  replace (2 * length text + 1)%nat with (S (2 * length text)) by lia.
  rewrite value_S, Es. unfold value_start in Hc.
  apply orb_false_elim in Hc as [Hc Hn]. apply orb_false_elim in Hc as [Hc Hf].
  apply orb_false_elim in Hc as [Hc Ht]. apply orb_false_elim in Hc as [Hc Hd].
  apply orb_false_elim in Hc as [Hc Hm]. apply orb_false_elim in Hc as [Hc Hq].
  apply orb_false_elim in Hc as [Hc Hb].
  rewrite Hc, Hb, Hq, Hm, Hd. simpl orb. cbn beta iota.
  unfold JSON.literal.
  change (lit "null") with (110 :: lit "ull").
  change (lit "true") with (116 :: lit "rue").
  change (lit "false") with (102 :: lit "alse").
  cbn [JSON.word]. rewrite (N.eqb_sym 110 c), (N.eqb_sym 116 c),
    (N.eqb_sym 102 c), Hn, Ht, Hf.
  reflexivity.
Qed.

(** ** Indices in a concatenation *)

Lemma indexOf_app c a b :
  indexOf c (a ++ b) =
  match indexOf c a with
  | Some i => Some i
  | None => (fun i => length a + i)%nat <$> indexOf c b
  end.
Proof.
  induction a as [|x a IH]; simpl.
  - destruct (indexOf c b); reflexivity.
  - destruct (x =? c); [reflexivity|]. rewrite IH.
    destruct (indexOf c a); [reflexivity|].
    destruct (indexOf c b); reflexivity.
Qed.

Lemma lastIndexOf_app c a b :
  lastIndexOf c (a ++ b) =
  match lastIndexOf c b with
  | Some j => Some (length a + j)%nat
  | None => lastIndexOf c a
  end.
Proof.
  induction a as [|x a IH]; simpl.
  - destruct (lastIndexOf c b); reflexivity.
  - rewrite IH. destruct (lastIndexOf c b); reflexivity.
Qed.

Lemma absent_last c s : absent c s <-> lastIndexOf c s = None.
Proof.
  unfold absent. induction s as [|x s IH]; simpl; [tauto|].
  destruct (x =? c).
  - destruct (lastIndexOf c s); split; discriminate.
  - destruct (indexOf c s), (lastIndexOf c s); simpl; split;
      intros H; try reflexivity; try discriminate;
      exfalso; destruct IH as [IH1 IH2];
      (specialize (IH1 eq_refl) || specialize (IH2 eq_refl)); discriminate.
Qed.

Lemma head_indexOf c s : head s = Some c -> indexOf c s = Some 0%nat.
Proof.
  destruct s as [|x s]; [discriminate|]. simpl. intros [= ->].
  rewrite N.eqb_refl. reflexivity.
Qed.

Lemma last_lastIndexOf c s :
  last s = Some c -> lastIndexOf c s = Some (length s - 1)%nat.
Proof.
  induction s as [|x s IH]; [discriminate|].
  destruct s as [|y s].
  - simpl. intros [= ->]. rewrite N.eqb_refl. reflexivity.
  - intros H. change (last (x :: y :: s)) with (last (y :: s)) in H.
    specialize (IH H). cbn [lastIndexOf] in *. rewrite IH.
    simpl. rewrite Nat.sub_0_r. reflexivity.
Qed.

Lemma slice_middle (a m b : list N) :
  slice (length a) (length a + length m) (a ++ m ++ b) = m.
Proof.
  unfold slice. rewrite drop_app_length.
  replace (length a + length m - length a)%nat with (length m) by lia.
  apply take_app_length.
Qed.

(** The span of an object between a text without opening brace and a
    text without closing brace is the object. *)
Lemma span_wrapped pre obj post :
  absent Ch.lbrace pre -> absent Ch.rbrace post ->
  head obj = Some Ch.lbrace -> last obj = Some Ch.rbrace ->
  extraction_span (pre ++ obj ++ post) = Some obj.
Proof.
  intros Hpre Hpost Hh Hl. unfold extraction_span.
  rewrite indexOf_app, Hpre, indexOf_app, (head_indexOf _ _ Hh). simpl.
  rewrite (assoc_L (++)), lastIndexOf_app.
  apply absent_last in Hpost. rewrite Hpost, lastIndexOf_app.
  rewrite (last_lastIndexOf _ _ Hl).
  assert (2 <= length obj)%nat as L.
  { destruct obj as [|x [|y obj]]; simpl in *; try discriminate; [|lia].
    injection Hh as ->. discriminate. }
  destruct (Nat.ltb_spec (length pre + 0) (length pre + (length obj - 1)));
    [|lia].
  f_equal. rewrite <- (assoc_L (++)).
  replace (length pre + 0)%nat with (length pre) by lia.
  replace (S (length pre + (length obj - 1))) with (length pre + length obj)%nat
    by lia.
  apply slice_middle.
Qed.


(** ** The span, taken apart *)

Lemma absent_take c s i : indexOf c s = Some i -> absent c (take i s).
Proof.
  unfold absent. revert i. induction s as [|x s IH]; intros i; simpl;
    [discriminate|].
  destruct (x =? c) eqn:Hx.
  - intros [= <-]. reflexivity.
  - destruct (indexOf c s) as [i'|]; simpl; [|discriminate].
    intros [= <-]. simpl. rewrite Hx, (IH i' eq_refl). reflexivity.
Qed.

Lemma absent_drop c s j :
  lastIndexOf c s = Some j -> absent c (drop (S j) s).
Proof.
  revert j. induction s as [|x s IH]; intros j; simpl; [discriminate|].
  destruct (lastIndexOf c s) as [j'|] eqn:E.
  - intros [= <-]. apply IH. reflexivity.
  - destruct (x =? c); [|discriminate]. intros [= <-].
    rewrite drop_0. apply absent_last. exact E.
Qed.

(** A span lies between a text without opening brace and a text without
    closing brace, starts with an opening brace and ends with a closing
    one. *)
Lemma span_parts text m :
  extraction_span text = Some m ->
  exists before after,
    text = before ++ m ++ after /\
    absent Ch.lbrace before /\ absent Ch.rbrace after /\
    head m = Some Ch.lbrace /\ last m = Some Ch.rbrace.
Proof.
  unfold extraction_span.
  destruct (indexOf Ch.lbrace text) as [i|] eqn:Ei; [|discriminate].
  destruct (lastIndexOf Ch.rbrace text) as [j|] eqn:Ej; [|discriminate].
  destruct (Nat.ltb_spec i j) as [Hij|]; [|discriminate].
  intros [= <-].
  pose proof (indexOf_Some _ _ _ Ei) as [Hi _].
  pose proof (lastIndexOf_Some _ _ _ Ej) as [Hj _].
  pose proof (lookup_lt_Some _ _ _ Hj) as Lj.
  exists (take i text), (drop (S j) text).
  assert (length (slice i (S j) text) = S j - i)%nat as Lm.
  { unfold slice. rewrite length_take, length_drop. lia. }
  split; [|split; [|split; [|split]]].
  - unfold slice.
    replace (drop (S j) text) with (drop (S j - i) (drop i text))
      by (rewrite drop_drop; f_equal; lia).
    rewrite take_drop, take_drop. reflexivity.
  - exact (absent_take _ _ _ Ei).
  - exact (absent_drop _ _ _ Ej).
  - rewrite head_lookup. unfold slice.
    rewrite lookup_take_lt by lia. rewrite lookup_drop, Nat.add_0_r. exact Hi.
  - rewrite last_lookup, Lm. unfold slice.
    rewrite lookup_take_lt by lia. rewrite lookup_drop.
    replace (i + pred (S j - i))%nat with j by lia. exact Hj.
Qed.


(** * Further properties of the handlers *)

(** X1. An object wrapped in prose is recovered.  When the text is an
    object between a text without opening brace and a text without
    closing brace, and the direct parse of the whole fails, the pattern
    matches exactly the object, and both handlers reply with its value,
    status 200. *)
Theorem object_in_prose_is_recovered (pre obj post : list N) (v : json) :
  JSON.parse (pre ++ obj ++ post) = None ->
  absent Ch.lbrace pre -> absent Ch.rbrace post ->
  head obj = Some Ch.lbrace -> last obj = Some Ch.rbrace ->
  JSON.parse obj = Some v ->
  let text := pre ++ obj ++ post in
  RegExp.exec brace_pattern text = Some obj /\
  extract text = Success v /\
  replies (events_of (parseInvoiceFromText.respond text)) = [(200%nat, Data v)] /\
  replies (events_of (getDashboardSummary.respond text)) = [(200%nat, Data v)].
Proof.
  intros Hdirect Hpre Hpost Hh Hl Hobj text.
  assert (RegExp.exec brace_pattern text = Some obj) as Hm.
  { rewrite exec_brace_pattern. apply span_wrapped; assumption. }
  split; [exact Hm|]. unfold events_of.
  rewrite extract_run, invoice_respond_run, dashboard_respond_run,
    invoice_parsedData_run, dashboard_parsedData_run.
  fold text in Hdirect. rewrite <- exec_brace_pattern, Hdirect, Hm, Hobj.
  repeat split.
Qed.

Lemma object_in_prose_witness :
  let text := lit "```json {'clientName':'Acme','items':[]} ```" in
  exists v : json,
    RegExp.exec brace_pattern text = Some (lit "{'clientName':'Acme','items':[]}") /\
    replies (events_of (parseInvoiceFromText.respond text)) = [(200%nat, Data v)].
Proof.
  intros text.
  destruct (JSON.parse (lit "{'clientName':'Acme','items':[]}")) as [v|] eqn:Hv;
    [|vm_compute in Hv; discriminate].
  exists v.
  destruct (object_in_prose_is_recovered (lit "```json ")
              (lit "{'clientName':'Acme','items':[]}") (lit " ```") v)
    as (H1 & _ & H3 & _); try reflexivity; try exact Hv.
  split; [exact H1 | exact H3].
Defined.

(** X2. An answer that starts with prose is decided by its span alone.
    When the first code unit after white space cannot start a JSON value,
    the direct parse fails, the pattern is tried, and the outcome is
    [NoJsonFound] without a span, the value of the span when it parses,
    [MalformedJson] when it does not. *)
Theorem prose_is_decided_by_the_span (text : list N) :
  starts_with_prose text ->
  JSON.parse text = None /\
  take 2 (events_of (parseInvoiceFromText.parsedData text))
    = [call_parse text; call_match text] /\
  take 2 (events_of (getDashboardSummary.parsedData text))
    = [call_parse text; call_match text] /\
  extract text =
    match RegExp.exec brace_pattern text with
    | None => Failure NoJsonFound
    | Some m =>
      match JSON.parse m with
      | Some v => Success v
      | None => Failure MalformedJson
      end
    end.
Proof.
  intros Hprose. pose proof (parse_prose _ Hprose) as Hdirect.
  split; [exact Hdirect|]. unfold events_of.
  rewrite extract_run, invoice_parsedData_run, dashboard_parsedData_run,
    Hdirect, exec_brace_pattern.
  destruct (extraction_span text) as [m|]; [|repeat split].
  destruct (JSON.parse m); repeat split.
Qed.

Lemma prose_witness :
  JSON.parse (lit "Sorry, I cannot help with that.") = None /\
  extract (lit "Sorry, I cannot help with that.") = Failure NoJsonFound.
Proof.
  destruct (prose_is_decided_by_the_span (lit "Sorry, I cannot help with that."))
    as (H1 & _ & _ & H4).
  - exists 83, (lit "orry, I cannot help with that."). split; reflexivity.
  - split; [exact H1 | exact H4].
Defined.

(** X3. What the pattern matches is a braced part of the text: it starts
    with an opening brace, ends with a closing brace, no opening brace
    occurs before it and no closing brace after it, and the pattern
    matches the whole of it again. *)
Theorem match_is_a_braced_part_of_the_text (text m : list N) :
  RegExp.exec brace_pattern text = Some m ->
  head m = Some Ch.lbrace /\ last m = Some Ch.rbrace /\
  (exists before after : list N,
     text = before ++ m ++ after /\
     absent Ch.lbrace before /\ absent Ch.rbrace after) /\
  RegExp.exec brace_pattern m = Some m.
Proof.
  rewrite !exec_brace_pattern. intros Hm.
  destruct (span_parts _ _ Hm) as (before & after & Ht & Hb & Ha & Hh & Hl).
  split; [exact Hh|]. split; [exact Hl|]. split; [eauto|].
  pose proof (span_wrapped [] m [] eq_refl eq_refl Hh Hl) as H.
  simpl in H. rewrite app_nil_r in H. exact H.
Qed.

Lemma match_witness :
  head (lit "{'a':1} middle {'b':2}") = Some Ch.lbrace /\
  last (lit "{'a':1} middle {'b':2}") = Some Ch.rbrace.
Proof.
  destruct (match_is_a_braced_part_of_the_text
              (lit "prefix {'a':1} middle {'b':2} suffix")
              (lit "{'a':1} middle {'b':2}")) as (H1 & H2 & _).
  - vm_compute. reflexivity.
  - split; [exact H1 | exact H2].
Defined.

(** X4. What the fallback recovers is an object.  When the direct parse
    fails, a successful outcome is a JSON object, never an array, a
    string, a number or a literal; and whatever [getDashboardSummary]
    assigns to [parsedData] then, recovered or placeholder, is an
    object. *)
Theorem recovered_value_is_an_object (text : list N) :
  JSON.parse text = None ->
  (forall v : json, extract text = Success v -> is_object v = true) /\
  (forall v : json,
     result_of (getDashboardSummary.parsedData text) = Normal v ->
     is_object v = true).
Proof.
  intros Hdirect. unfold result_of.
  rewrite extract_run, dashboard_parsedData_run, exec_brace_pattern, Hdirect.
  destruct (extraction_span text) as [m|] eqn:Em.
  - destruct (span_parts _ _ Em) as (_ & _ & _ & _ & _ & Hh & _).
    destruct (JSON.parse m) as [v'|] eqn:Hm; split; intros v [= <-].
    + exact (parse_brace_is_object _ _ Hh Hm).
    + exact (parse_brace_is_object _ _ Hh Hm).
    + reflexivity.
  - split; intros v [= <-]. reflexivity.
Qed.

Lemma recovered_object_witness :
  exists v : json,
    extract (lit "data: {'a':[1,2]}") = Success v /\ is_object v = true.
Proof.
  destruct (extract (lit "data: {'a':[1,2]}")) as [v|r] eqn:E;
    [|vm_compute in E; discriminate].
  exists v. split; [reflexivity|].
  apply (proj1 (recovered_value_is_an_object (lit "data: {'a':[1,2]}")
                  ltac:(vm_compute; reflexivity)) v).
  exact E.
Defined.



(** X6. White space around a valid answer is harmless.  A text that is
    valid JSON, with white space (spaces, tabs, line ends) before and
    after it, is parsed directly to the same value; the pattern is not
    tried. *)
Theorem padded_json_is_parsed_directly
    (ws1 text ws2 : list N) (v : json) :
  blank ws1 -> blank ws2 -> JSON.parse text = Some v ->
  let padded := ws1 ++ text ++ ws2 in
  extract padded = Success v /\
  events_of (parseInvoiceFromText.parsedData padded) = [call_parse padded] /\
  result_of (getDashboardSummary.parsedData padded) = Normal v /\
  events_of (getDashboardSummary.parsedData padded) = [call_parse padded].
Proof.
  intros H1 H2 Hv padded.
  pose proof (parse_padded ws1 text ws2 v H1 H2 Hv) as Hp. fold padded in Hp.
  unfold events_of, result_of.
  rewrite extract_run, invoice_parsedData_run, dashboard_parsedData_run, Hp.
  repeat split.
Qed.

Lemma padded_json_witness :
  extract (lit "  {'insights':['ok']}   ")
  = Success (insights "ok").
Proof.
  apply (padded_json_is_parsed_directly (lit "  ")
           (lit "{'insights':['ok']}") (lit "   ") (insights "ok")).
  - reflexivity.
  - reflexivity.
  - vm_compute. reflexivity.
Defined.

(** X7. The reply of [parseInvoiceFromText] tells what happened.  Its
    reply is the 500 with the [Error] of line 60 exactly when the direct
    parse fails and no opening brace is later followed by a closing one;
    the 500 with a [SyntaxError] exactly when the direct parse fails and
    the text the pattern matches does not parse; and status 200 with [v]
    exactly when the text, or failing that the match, parses to [v]. *)
Theorem invoice_reply_tells_the_cause (text : list N) :
  (replies (events_of (parseInvoiceFromText.respond text))
     = [invoice_failure no_valid_json]
   <-> JSON.parse text = None /\ ~ has_brace_span text) /\
  (replies (events_of (parseInvoiceFromText.respond text))
     = [invoice_failure SyntaxError]
   <-> JSON.parse text = None /\
       exists m, RegExp.exec brace_pattern text = Some m /\
                 JSON.parse m = None) /\
  (forall v : json,
     replies (events_of (parseInvoiceFromText.respond text))
       = [(200%nat, Data v)]
     <-> JSON.parse text = Some v \/
         (JSON.parse text = None /\
          exists m, RegExp.exec brace_pattern text = Some m /\
                    JSON.parse m = Some v)).
Proof.
  unfold events_of. rewrite invoice_respond_run, invoice_parsedData_run.
  rewrite <- extraction_span_None, exec_brace_pattern.
  destruct (JSON.parse text) as [v0|].
  { simpl. split; [|split].
    - split; [discriminate | intros [[=] _]].
    - split; [discriminate | intros [[=] _]].
    - intros v. split.
      + intros [= ->]. left. reflexivity.
      + intros [[= ->] | [[=] _]]. reflexivity. }
  destruct (extraction_span text) as [m|].
  - destruct (JSON.parse m) as [v1|] eqn:Hm; simpl.
    + split; [|split].
      * split; [discriminate | intros [_ [=]]].
      * split; [discriminate|]. intros (_ & m' & [= <-] & H). congruence.
      * intros v. split.
        -- intros [= ->]. right. eauto.
        -- intros [[=] | (_ & m' & [= <-] & H)]. congruence.
    + split; [|split].
      * split; [discriminate | intros [_ [=]]].
      * split; [eauto|reflexivity].
      * intros v. split; [discriminate|].
        intros [[=] | (_ & m' & [= <-] & H)]. congruence.
  - simpl. split; [|split].
    + split; [auto | reflexivity].
    + split; [discriminate | intros (_ & m' & [=] & _)].
    + intros v. split; [discriminate|].
      intros [[=] | (_ & m' & [=] & _)].
Qed.

(** * Properties of the handlers in full *)

(** ** The blocks, on a string and on another value *)

Lemma handler_parse_string TO s w :
  Handler.JSON_parse TO (JString s) w =
  (Handler.of_completion (lift_parse (JSON.parse s)), w ++ [Handler.io_parse s]).
Proof.
  unfold Handler.JSON_parse, Handler.bind, Handler.await, Handler.emit. simpl.
  destruct (JSON.parse s); reflexivity.
Qed.

Lemma handler_invoice_block_string TO s w :
  Handler.invoice_parsedData TO (JString s) w =
  (Handler.of_completion (result_of (parseInvoiceFromText.parsedData s)),
   w ++ map Handler.of_event (events_of (parseInvoiceFromText.parsedData s))).
Proof.
  unfold result_of, events_of. rewrite invoice_parsedData_run.
  unfold Handler.invoice_parsedData, Handler.try_catch.
  rewrite handler_parse_string.
  destruct (JSON.parse s) as [v|]; [reflexivity|]. simpl.
  unfold Handler.bind, Handler.String_match, Handler.emit, Handler.ret,
    Handler.raise. simpl.
  destruct (RegExp.exec brace_pattern s) as [m0|].
  - rewrite handler_parse_string, <- !app_assoc. reflexivity.
  - rewrite <- !app_assoc. reflexivity.
Qed.

Lemma handler_dashboard_block_string TO s w :
  Handler.dashboard_parsedData TO (JString s) w =
  (Handler.of_completion (result_of (getDashboardSummary.parsedData s)),
   w ++ map Handler.of_event (events_of (getDashboardSummary.parsedData s))).
Proof.
  unfold result_of, events_of. rewrite dashboard_parsedData_run.
  unfold Handler.dashboard_parsedData, Handler.try_catch.
  rewrite handler_parse_string.
  destruct (JSON.parse s) as [v|]; [reflexivity|]. simpl.
  unfold Handler.bind, Handler.String_match, Handler.emit, Handler.ret,
    Handler.raise. simpl.
  destruct (RegExp.exec brace_pattern s) as [m0|].
  - rewrite handler_parse_string.
    destruct (JSON.parse m0) as [v|]; simpl; rewrite <- !app_assoc; reflexivity.
  - rewrite <- !app_assoc. reflexivity.
Qed.

(** On a value that is no string, each block ends with the value parsed
    from its conversion to a string, or with a [TypeError]: the value has
    no method [match]. *)
Lemma handler_blocks_other TO v w :
  Handler.is_string v = false ->
  let run :=
    match Handler.ToString TO v with
    | Handler.Done s =>
      match JSON.parse s with
      | Some x => (Handler.Done x, w ++ [Handler.io_parse s])
      | None => (Handler.Raise Handler.TypeError, w ++ [Handler.io_parse s])
      end
    | Handler.Raise _ => (Handler.Raise Handler.TypeError, w)
    end in
  Handler.invoice_parsedData TO v w = run /\
  Handler.dashboard_parsedData TO v w = run.
Proof.
  intros Hv run. subst run.
  unfold Handler.invoice_parsedData, Handler.dashboard_parsedData,
    Handler.try_catch, Handler.JSON_parse, Handler.bind, Handler.await,
    Handler.emit, Handler.String_match, Handler.raise, Handler.ret.
  destruct (Handler.ToString TO v) as [s|f].
  - destruct (JSON.parse s); destruct v; try discriminate; split; reflexivity.
  - destruct v; try discriminate; split; reflexivity.
Qed.

Lemma sent_app w1 w2 : Handler.sent (w1 ++ w2) = Handler.sent w1 ++ Handler.sent w2.
Proof.
  induction w1 as [|e w1 IH]; [reflexivity|].
  destruct e; simpl; rewrite ?IH; reflexivity.
Qed.

Lemma fetched_app w1 w2 :
  Handler.fetched (w1 ++ w2) = Handler.fetched w1 ++ Handler.fetched w2.
Proof.
  induction w1 as [|e w1 IH]; [reflexivity|].
  destruct e; simpl; rewrite ?IH; reflexivity.
Qed.

(** Each block adds to the trace, and what it adds holds no reply and no
    request to the provider. *)
Lemma handler_blocks_frame TO v w :
  (exists r evs,
     Handler.invoice_parsedData TO v w = (r, w ++ evs) /\
     Handler.sent evs = [] /\ Handler.fetched evs = []) /\
  (exists r evs,
     Handler.dashboard_parsedData TO v w = (r, w ++ evs) /\
     Handler.sent evs = [] /\ Handler.fetched evs = []).
Proof.
  destruct (Handler.is_string v) eqn:Hs.
  - destruct v; try discriminate.
    rewrite handler_invoice_block_string, handler_dashboard_block_string.
    unfold result_of, events_of.
    rewrite invoice_parsedData_run, dashboard_parsedData_run.
    destruct (JSON.parse s); [split; eexists; eexists; repeat split|].
    destruct (RegExp.exec brace_pattern s) as [m0|].
    + destruct (JSON.parse m0); split; eexists; eexists; repeat split.
    + split; eexists; eexists; repeat split.
  - destruct (handler_blocks_other TO v w Hs) as [-> ->].
    destruct (Handler.ToString TO v) as [s|f].
    + destruct (JSON.parse s); split; eexists; eexists; repeat split.
    + split; exists (Handler.Raise Handler.TypeError), [];
        rewrite app_nil_r; repeat split.
Qed.

Lemma optional_Some base k v :
  Handler.optional base k = Some v ->
  exists b, base = Some b /\ Handler.Get b k = Some v.
Proof. destruct base as [[]|]; simpl; try discriminate; eauto. Qed.

Lemma optional_Get b k v :
  Handler.Get b k = Some v -> Handler.optional (Some b) k = Some v.
Proof. destruct b; simpl; try discriminate; auto. Qed.

Lemma content_of_carried data v :
  Handler.carries data v ->
  Handler.content_or_empty data
  = Handler.Done (if Handler.truthy (Some v) then v else JString []).
Proof.
  intros (c & f & m & Hc & Hf & Hm & Hv).
  unfold Handler.content_or_empty.
  rewrite Hc, (optional_Get _ _ _ Hf), (optional_Get _ _ _ Hm),
    (optional_Get _ _ _ Hv).
  destruct data; try reflexivity. simpl in Hc. discriminate.
Qed.

Lemma content_of_carried_string data s :
  Handler.carries data (JString s) ->
  Handler.content_or_empty data = Handler.Done (JString s).
Proof.
  intros H. rewrite (content_of_carried _ _ H). destruct s; reflexivity.
Qed.

Lemma content_found data v :
  Handler.content_or_empty data = Handler.Done v ->
  v = JString [] \/ (Handler.truthy (Some v) = true /\ Handler.carries data v).
Proof.
  unfold Handler.content_or_empty.
  set (content := Handler.optional _ Handler.k_content).
  destruct (Handler.truthy content) eqn:Ht.
  - intros Hv. right.
    assert (content = Some v) as Ec.
    { destruct data; try discriminate;
        (destruct content as [x|]; [|discriminate]);
        simpl in Hv; injection Hv as <-; reflexivity. }
    rewrite Ec in Ht. split; [exact Ht|]. subst content.
    apply optional_Some in Ec as (m & Em & Hm).
    apply optional_Some in Em as (f & Ef & Hf).
    apply optional_Some in Ef as (c & Ec & Hc). exists c, f, m. auto.
  - intros Hv. left. destruct data; try discriminate; congruence.
Qed.

Lemma content_fault data f :
  Handler.content_or_empty data = Handler.Raise f ->
  data = JNull /\ f = Handler.TypeError.
Proof.
  destruct data; simpl; try discriminate. intros [= <-]. auto.
Qed.

(** X8. Reading the provider's answer.  The expression
    [data.choices?.[0]?.message?.content || ''] throws only when the body
    is [null]; a result other than the empty string is truthy and is the
    value found along the whole path, and every truthy value found there
    is the result: a body without [choices], with no first choice, with
    no [message] or with no [content] gives the empty string. *)
Theorem content_comes_from_the_whole_path (data : json) :
  (Handler.content_or_empty data = Handler.Raise Handler.TypeError
   <-> data = JNull) /\
  (forall f, Handler.content_or_empty data = Handler.Raise f
             -> f = Handler.TypeError) /\
  (forall v : json,
     Handler.content_or_empty data = Handler.Done v ->
     v = JString [] \/
     (Handler.truthy (Some v) = true /\ Handler.carries data v)) /\
  (forall v : json,
     Handler.carries data v -> Handler.truthy (Some v) = true ->
     Handler.content_or_empty data = Handler.Done v).
Proof.
  split; [|split; [|split]].
  - split; [|intros ->; reflexivity].
    intros H. apply content_fault in H. tauto.
  - intros f H. apply content_fault in H. tauto.
  - apply content_found.
  - intros v H Ht. rewrite (content_of_carried _ _ H), Ht. reflexivity.
Qed.

Lemma content_witness :
  Handler.content_or_empty
    (JObject {[ lit "choices" :=
                JArray [JObject {[ lit "message" :=
                          JObject {[ lit "content" := JString (lit "Subject: hello") ]} ]}] ]})
  = Handler.Done (JString (lit "Subject: hello")).
Proof.
  apply (proj2 (proj2 (proj2 (content_comes_from_the_whole_path _)))).
  - eexists; eexists; eexists. repeat split; vm_compute; reflexivity.
  - reflexivity.
Defined.

Lemma sent_of_events evs :
  Handler.sent (map Handler.of_event evs)
  = map (fun r => (fst r, Handler.of_body (snd r))) (replies evs).
Proof.
  induction evs as [|e evs IH]; [reflexivity|].
  destruct e; simpl; rewrite ?IH; reflexivity.
Qed.


(** ** Running the handlers in full *)

Lemma parseInvoiceFromText_run TO body network w :
  Handler.parseInvoiceFromText TO body network w =
  if Handler.nullish body then (Handler.Raise Handler.TypeError, w)
  else
    let text := Handler.optional body Handler.k_text in
    if negb (Handler.truthy text) then
      (Handler.Done tt,
       w ++ [Handler.io_reply 400 (Handler.message_body "Text is required")])
    else
      match Handler.ToString_value TO text with
      | Handler.Raise f => Handler.invoice_caught f w
      | Handler.Done prompt =>
        let w1 := w ++ [Handler.io_fetch (Handler.invoice_request prompt)] in
        match network with
        | Handler.Raise f => Handler.invoice_caught f w1
        | Handler.Done data =>
          match Handler.content_or_empty data with
          | Handler.Raise f => Handler.invoice_caught f w1
          | Handler.Done rt =>
            match Handler.invoice_parsedData TO rt w1 with
            | (Handler.Done v, w2) =>
              (Handler.Done tt, w2 ++ [Handler.io_reply 200 (Handler.Json v)])
            | (Handler.Raise f, w2) => Handler.invoice_caught f w2
            end
          end
        end
      end.
Proof.
  unfold Handler.parseInvoiceFromText, Handler.member, Handler.invoice_caught,
    Handler.try_catch, Handler.bind, Handler.await, Handler.emit, Handler.raise.
  destruct (Handler.nullish body); [reflexivity|]. cbn zeta.
  destruct (negb _); [reflexivity|].
  destruct (Handler.ToString_value TO _) as [prompt|f];
    [|rewrite <- app_assoc; reflexivity].
  destruct network as [data|f]; [|rewrite <- app_assoc; reflexivity].
  destruct (Handler.content_or_empty data) as [rt|f];
    [|rewrite <- app_assoc; reflexivity].
  destruct (Handler.invoice_parsedData TO rt _) as [[v|f] w2];
    [reflexivity | rewrite <- app_assoc; reflexivity].
Qed.

Lemma generateReminderEmail_run (invoice : Type)
    (reminder_details : invoice -> Handler.outcome (list N))
    body lookup network w :
  Handler.generateReminderEmail invoice reminder_details body lookup network w =
  if Handler.nullish body then (Handler.Raise Handler.TypeError, w)
  else
    let invoiceId := Handler.optional body Handler.k_invoiceId in
    if negb (Handler.truthy invoiceId) then
      (Handler.Done tt,
       w ++ [Handler.io_reply 400 (Handler.message_body "Invoice ID is required")])
    else
      let w1 := w ++ [Handler.io_findById invoiceId] in
      match lookup with
      | Handler.Raise f => Handler.reminder_caught f w1
      | Handler.Done None =>
        (Handler.Done tt,
         w1 ++ [Handler.io_reply 404 (Handler.message_body "Invoice not found")])
      | Handler.Done (Some inv) =>
        match reminder_details inv with
        | Handler.Raise f => Handler.reminder_caught f w1
        | Handler.Done details =>
          let w2 := w1 ++ [Handler.io_fetch (Handler.reminder_request details)] in
          match network with
          | Handler.Raise f => Handler.reminder_caught f w2
          | Handler.Done data =>
            match Handler.content_or_empty data with
            | Handler.Raise f => Handler.reminder_caught f w2
            | Handler.Done reminderText =>
              (Handler.Done tt,
               w2 ++ [Handler.io_reply 200 (Handler.reminder_body reminderText)])
            end
          end
        end
      end.
Proof.
  unfold Handler.generateReminderEmail, Handler.member, Handler.reminder_caught,
    Handler.try_catch, Handler.bind, Handler.await, Handler.emit, Handler.raise.
  destruct (Handler.nullish body); [reflexivity|]. cbn zeta.
  destruct (negb _); [reflexivity|].
  destruct lookup as [[inv|]|f];
    [| reflexivity | rewrite <- app_assoc; reflexivity].
  destruct (reminder_details inv) as [details|f];
    [|rewrite <- app_assoc; reflexivity].
  destruct network as [data|f]; [|rewrite <- app_assoc; reflexivity].
  destruct (Handler.content_or_empty data) as [rt|f];
    [reflexivity | rewrite <- app_assoc; reflexivity].
Qed.

Lemma getDashboardSummary_run (invoice : Type) TO
    (data_summary : list invoice -> Handler.outcome (list N))
    user_id found network w :
  Handler.getDashboardSummary invoice TO data_summary user_id found network w =
  match user_id with
  | Handler.Raise f => Handler.dashboard_caught f w
  | Handler.Done id =>
    let w1 := w ++ [Handler.io_find id] in
    match found with
    | Handler.Raise f => Handler.dashboard_caught f w1
    | Handler.Done [] =>
      (Handler.Done tt,
       w1 ++ [Handler.io_reply 200
                (Handler.Json
                   (insights "No invoice data available to generate insights."))])
    | Handler.Done (inv :: others) =>
      match data_summary (inv :: others) with
      | Handler.Raise f => Handler.dashboard_caught f w1
      | Handler.Done summary =>
        let w2 := w1 ++ [Handler.io_fetch (Handler.summary_request summary)] in
        match network with
        | Handler.Raise f => Handler.dashboard_caught f w2
        | Handler.Done data =>
          match Handler.content_or_empty data with
          | Handler.Raise f => Handler.dashboard_caught f w2
          | Handler.Done rt =>
            match Handler.dashboard_parsedData TO rt
                    (w2 ++ [Handler.io_console (Handler.raw_response rt)]) with
            | (Handler.Done v, w3) =>
              (Handler.Done tt, w3 ++ [Handler.io_reply 200 (Handler.Json v)])
            | (Handler.Raise f, w3) => Handler.dashboard_caught f w3
            end
          end
        end
      end
    end
  end.
Proof.
  unfold Handler.getDashboardSummary, Handler.dashboard_caught,
    Handler.try_catch, Handler.bind, Handler.await, Handler.emit, Handler.raise.
  destruct user_id as [id|f]; [|rewrite <- app_assoc; reflexivity].
  destruct found as [[|inv others]|f];
    [reflexivity | | rewrite <- app_assoc; reflexivity].
  destruct (data_summary (inv :: others)) as [summary|f];
    [|rewrite <- app_assoc; reflexivity].
  destruct network as [data|f]; [|rewrite <- app_assoc; reflexivity].
  destruct (Handler.content_or_empty data) as [rt|f];
    [|rewrite <- app_assoc; reflexivity].
  destruct (Handler.dashboard_parsedData TO rt _) as [[v|f] w3];
    [reflexivity | rewrite <- app_assoc; reflexivity].
Qed.

Lemma Get_not_nullish b k v :
  Handler.Get b k = Some v -> Handler.nullish (Some b) = false.
Proof. destruct b; simpl; try discriminate; reflexivity. Qed.

(** X9. [parseInvoiceFromText], given a text and an answer that carries
    a string, does what the extraction model does on that string: after
    the one request to the provider, its trace is the trace of the model
    (the calls of [JSON.parse] and [match], the console line, the reply),
    so every property of the model on a text holds of the handler on an
    answer that carries this text. *)
Theorem invoice_handler_runs_the_extraction
    (TO : json -> Handler.outcome (list N)) (b data : json) (t s : list N) :
  Handler.Get b Handler.k_text = Some (JString t) -> t <> [] ->
  Handler.carries data (JString s) ->
  Handler.parseInvoiceFromText TO (Some b) (Handler.Done data) []
  = (Handler.Done tt,
     Handler.io_fetch (Handler.invoice_request t)
       :: map Handler.of_event (events_of (parseInvoiceFromText.respond s))).
Proof.
  intros Hb Ht Hdata.
  rewrite parseInvoiceFromText_run, (Get_not_nullish _ _ _ Hb),
    (optional_Get _ _ _ Hb).
  destruct t as [|x t]; [contradiction|]. cbn zeta. simpl negb. cbn iota.
  simpl Handler.ToString_value.
  rewrite (content_of_carried_string _ _ Hdata), handler_invoice_block_string.
  unfold events_of, result_of. rewrite invoice_respond_run.
  destruct (parseInvoiceFromText.parsedData s []) as [[v|e] evs]; simpl;
    rewrite ?map_app; reflexivity.
Qed.

Lemma invoice_handler_witness :
  Handler.sent
    (snd (Handler.parseInvoiceFromText (fun _ => Handler.Done [])
            (Some (JObject {[ lit "text" := JString (lit "two chairs for Acme") ]}))
            (Handler.Done
               (JObject {[ lit "choices" :=
                  JArray [JObject {[ lit "message" :=
                    JObject {[ lit "content" :=
                      JString (lit "Sure! {'a':1} Hope that helps") ]} ]}] ]}))
            []))
  = [(200%nat, Handler.Json (JObject {[ lit "a" := JNumber 1 0 ]}))].
Proof.
  rewrite (invoice_handler_runs_the_extraction _ _ _
             (lit "two chairs for Acme") (lit "Sure! {'a':1} Hope that helps")).
  - vm_compute. reflexivity.
  - reflexivity.
  - discriminate.
  - eexists; eexists; eexists. repeat split; vm_compute; reflexivity.
Defined.

(** X10. [getDashboardSummary], given invoices and an answer that
    carries a string, does what the extraction model does on that string:
    after the query and the one request to the provider, its trace is the
    trace of the model. *)
Theorem dashboard_handler_runs_the_extraction
    (invoice : Type) (TO : json -> Handler.outcome (list N))
    (data_summary : list invoice -> Handler.outcome (list N))
    (id : option json) (inv : invoice) (others : list invoice)
    (summary : list N) (data : json) (s : list N) :
  data_summary (inv :: others) = Handler.Done summary ->
  Handler.carries data (JString s) ->
  Handler.getDashboardSummary invoice TO data_summary
    (Handler.Done id) (Handler.Done (inv :: others)) (Handler.Done data) []
  = (Handler.Done tt,
     Handler.io_find id
       :: Handler.io_fetch (Handler.summary_request summary)
       :: map Handler.of_event (events_of (getDashboardSummary.respond s))).
Proof.
  intros Hsum Hdata.
  rewrite getDashboardSummary_run. cbn beta iota zeta.
  rewrite Hsum, (content_of_carried_string _ _ Hdata). cbn beta iota zeta.
  rewrite handler_dashboard_block_string.
  unfold events_of, result_of.
  rewrite dashboard_respond_run, !dashboard_parsedData_run.
  destruct (JSON.parse s) as [v|]; [reflexivity|].
  destruct (RegExp.exec brace_pattern s) as [m0|]; [|reflexivity].
  destruct (JSON.parse m0); reflexivity.
Qed.

Lemma dashboard_handler_witness :
  Handler.sent
    (snd (Handler.getDashboardSummary unit (fun _ => Handler.Done [])
            (fun _ => Handler.Done (lit "Total invoices: 1"))
            (Handler.Done (Some (JString (lit "u1"))))
            (Handler.Done [tt])
            (Handler.Done
               (JObject {[ lit "choices" :=
                  JArray [JObject {[ lit "message" :=
                    JObject {[ lit "content" := JString (lit "no insights today") ]} ]}] ]}))
            []))
  = [(200%nat, Handler.Json no_insights)].
Proof.
  rewrite (dashboard_handler_runs_the_extraction unit _ _ _ tt []
             (lit "Total invoices: 1") _ (lit "no insights today")).
  - vm_compute. reflexivity.
  - reflexivity.
  - eexists; eexists; eexists. repeat split; vm_compute; reflexivity.
Defined.

(** Closes a goal about the replies and requests of an explicit trace:
    the trace first, then its one reply, then the facts about them. *)
Ltac trace_rewrite :=
  rewrite ?sent_app, ?fetched_app;
  repeat match goal with H : Handler.sent _ = [] |- _ => rewrite H end;
  repeat match goal with H : Handler.fetched _ = [] |- _ => rewrite H end;
  simpl.

Ltac trace_facts :=
  unfold Handler.invoice_caught, Handler.reminder_caught,
    Handler.dashboard_caught;
  rewrite ?app_nil_l;
  eexists; eexists; split; [reflexivity|];
  split; [trace_rewrite; reflexivity|];
  trace_rewrite;
  repeat split; intros; subst;
  repeat match goal with H : _ /\ _ |- _ => destruct H end;
  try reflexivity; try discriminate; try congruence; try lia; try tauto; auto.

(** X11. [parseInvoiceFromText] answers every request once.  When
    [req.body] is [null] or [undefined] the destructuring throws out of
    the handler and no reply is sent.  Otherwise the handler ends
    normally, whatever the provider does, with exactly one reply, of
    status 400, 200 or 500: 400 exactly when [text] is falsy (missing,
    [null], [false], zero or the empty string), and then no request goes
    to the provider; at most one request is made; and when the provider's
    call fails with an error, the reply is the 500 that reports it. *)
Theorem parseInvoiceFromText_replies_once
    (TO : json -> Handler.outcome (list N))
    (body : option json) (network : Handler.outcome json) :
  (Handler.nullish body = true ->
   Handler.parseInvoiceFromText TO body network []
     = (Handler.Raise Handler.TypeError, [])) /\
  (Handler.nullish body = false ->
   exists (st : nat) (ans : Handler.answer) (evs : list Handler.io),
     Handler.parseInvoiceFromText TO body network [] = (Handler.Done tt, evs) /\
     Handler.sent evs = [(st, ans)] /\
     (st = 400 \/ st = 200 \/ st = 500)%nat /\
     (st = 400%nat <->
      Handler.truthy (Handler.optional body Handler.k_text) = false) /\
     (st = 400%nat ->
      ans = Handler.message_body "Text is required" /\
      Handler.fetched evs = []) /\
     (length (Handler.fetched evs) <= 1)%nat /\
     (forall f, network = Handler.Raise f -> Handler.fetched evs <> [] ->
        st = 500%nat /\
        ans = Handler.Failed "Failed to parse invoice data from text." f)).
Proof.
  rewrite parseInvoiceFromText_run. split; intros Hn; rewrite Hn;
    [reflexivity|]. cbn zeta.
  destruct (Handler.truthy (Handler.optional body Handler.k_text)) eqn:Ht;
    simpl negb; cbn iota; [|exists 400%nat; trace_facts].
  destruct (Handler.ToString_value TO _) as [prompt|f];
    [|exists 500%nat; trace_facts].
  destruct network as [data|f]; [|exists 500%nat; trace_facts].
  destruct (Handler.content_or_empty data) as [rt|f];
    [|exists 500%nat; trace_facts].
  destruct (handler_blocks_frame TO rt
              ([] ++ [Handler.io_fetch (Handler.invoice_request prompt)]))
    as [(r & evs' & E & Hs & Hf) _].
  rewrite E. destruct r as [v|f]; [exists 200%nat | exists 500%nat]; trace_facts.
Qed.

Lemma parseInvoiceFromText_witness :
  Handler.sent
    (snd (Handler.parseInvoiceFromText (fun _ => Handler.Done [])
            (Some (JObject {[ lit "text" := JString [] ]}))
            (Handler.Raise (Handler.rejected (lit "network down"))) []))
  = [(400%nat, Handler.message_body "Text is required")].
Proof.
  destruct (proj2 (parseInvoiceFromText_replies_once (fun _ => Handler.Done [])
              (Some (JObject {[ lit "text" := JString [] ]}))
              (Handler.Raise (Handler.rejected (lit "network down")))))
    as (st & ans & evs & E & Hs & _ & H400 & Hans & _).
  - reflexivity.
  - rewrite E. simpl. rewrite Hs.
    assert (st = 400%nat) as -> by (apply H400; reflexivity).
    destruct (Hans eq_refl) as [-> _]. reflexivity.
Defined.

(** X12. [generateReminderEmail] answers every request once.  When
    [req.body] is [null] or [undefined] the destructuring throws out of
    the handler and no reply is sent.  Otherwise the handler ends
    normally, whatever the database and the provider do, with exactly one
    reply, of status 400, 404, 200 or 500: 400 exactly when [invoiceId]
    is falsy, 404 exactly when it is truthy and no invoice is found; the
    provider is asked at most once, and only for an invoice that was
    found; and a reply of status 200 carries, as [reminderText], what the
    answer's content was read as. *)
Theorem generateReminderEmail_replies_once
    (invoice : Type) (reminder_details : invoice -> Handler.outcome (list N))
    (body : option json) (lookup : Handler.outcome (option invoice))
    (network : Handler.outcome json) :
  (Handler.nullish body = true ->
   Handler.generateReminderEmail invoice reminder_details body lookup network []
     = (Handler.Raise Handler.TypeError, [])) /\
  (Handler.nullish body = false ->
   exists (st : nat) (ans : Handler.answer) (evs : list Handler.io),
     Handler.generateReminderEmail invoice reminder_details body lookup network []
       = (Handler.Done tt, evs) /\
     Handler.sent evs = [(st, ans)] /\
     (st = 400 \/ st = 404 \/ st = 200 \/ st = 500)%nat /\
     (st = 400%nat <->
      Handler.truthy (Handler.optional body Handler.k_invoiceId) = false) /\
     (st = 400%nat -> ans = Handler.message_body "Invoice ID is required") /\
     (st = 404%nat <->
      Handler.truthy (Handler.optional body Handler.k_invoiceId) = true /\
      lookup = Handler.Done None) /\
     (st = 404%nat -> ans = Handler.message_body "Invoice not found") /\
     (Handler.fetched evs <> [] ->
      exists inv, lookup = Handler.Done (Some inv)) /\
     (length (Handler.fetched evs) <= 1)%nat /\
     (st = 200%nat ->
      exists data v,
        network = Handler.Done data /\
        Handler.content_or_empty data = Handler.Done v /\
        ans = Handler.reminder_body v)).
Proof.
  rewrite generateReminderEmail_run. split; intros Hn; rewrite Hn;
    [reflexivity|]. cbn zeta.
  destruct (Handler.truthy (Handler.optional body Handler.k_invoiceId)) eqn:Ht;
    simpl negb; cbn iota; [|exists 400%nat; trace_facts].
  destruct lookup as [[inv|]|f];
    [| exists 404%nat; trace_facts | exists 500%nat; trace_facts].
  destruct (reminder_details inv) as [details|f];
    [|exists 500%nat; trace_facts].
  destruct network as [data|f]; [|exists 500%nat; trace_facts; eauto].
  destruct (Handler.content_or_empty data) as [rt|f] eqn:Ec;
    [exists 200%nat | exists 500%nat]; trace_facts; eauto.
Qed.

Lemma generateReminderEmail_witness :
  Handler.sent
    (snd (Handler.generateReminderEmail unit (fun _ => Handler.Done [])
            (Some (JObject {[ lit "invoiceId" := JString (lit "64f0") ]}))
            (Handler.Done None)
            (Handler.Raise (Handler.rejected (lit "network down"))) []))
  = [(404%nat, Handler.message_body "Invoice not found")].
Proof.
  destruct (proj2 (generateReminderEmail_replies_once unit
              (fun _ => Handler.Done [])
              (Some (JObject {[ lit "invoiceId" := JString (lit "64f0") ]}))
              (Handler.Done None)
              (Handler.Raise (Handler.rejected (lit "network down")))))
    as (st & ans & evs & E & Hs & _ & _ & _ & H404 & Hans & _).
  - reflexivity.
  - rewrite E. simpl. rewrite Hs.
    assert (st = 404%nat) as -> by (apply H404; split; reflexivity).
    rewrite (Hans eq_refl). reflexivity.
Defined.

(** X13. [getDashboardSummary] never throws and answers once.  Whatever
    the request, the database and the provider give, the handler ends
    normally with exactly one reply, of status 200 or 500.  With no
    invoice the reply is the fixed no-data insight, status 200, and the
    provider is not asked; a missing [req.user] is answered 500 without
    a query; the provider is asked at most once, and only when there are
    invoices. *)
Theorem getDashboardSummary_replies_once
    (invoice : Type) (TO : json -> Handler.outcome (list N))
    (data_summary : list invoice -> Handler.outcome (list N))
    (user_id : Handler.outcome (option json))
    (found : Handler.outcome (list invoice))
    (network : Handler.outcome json) :
  exists (st : nat) (ans : Handler.answer) (evs : list Handler.io),
    Handler.getDashboardSummary invoice TO data_summary user_id found network []
      = (Handler.Done tt, evs) /\
    Handler.sent evs = [(st, ans)] /\
    (st = 200 \/ st = 500)%nat /\
    (forall id, user_id = Handler.Done id -> found = Handler.Done [] ->
       st = 200%nat /\
       ans = Handler.Json
               (insights "No invoice data available to generate insights.") /\
       evs = [Handler.io_find id; Handler.io_reply st ans]) /\
    (forall f, user_id = Handler.Raise f ->
       st = 500%nat /\
       ans = Handler.Failed "Failed to generate dashboard insights." f /\
       evs = [Handler.io_console (Handler.dashboard_summary f);
              Handler.io_reply st ans]) /\
    (Handler.fetched evs <> [] ->
     exists inv others, found = Handler.Done (inv :: others)) /\
    (length (Handler.fetched evs) <= 1)%nat.
Proof.
  rewrite getDashboardSummary_run.
  destruct user_id as [id|f]; [|exists 500%nat; trace_facts]. cbn zeta.
  destruct found as [[|inv others]|f];
    [exists 200%nat; trace_facts | | exists 500%nat; trace_facts].
  destruct (data_summary (inv :: others)) as [summary|f];
    [|exists 500%nat; trace_facts].
  destruct network as [data|f]; [|exists 500%nat; trace_facts; eauto].
  destruct (Handler.content_or_empty data) as [rt|f];
    [|exists 500%nat; trace_facts; eauto].
  match goal with
  | |- context [Handler.dashboard_parsedData TO rt ?w] =>
    destruct (handler_blocks_frame TO rt w) as [_ (r & evs' & E & Hs & Hf)]
  end.
  rewrite E. destruct r as [v|f]; [exists 200%nat | exists 500%nat];
    trace_facts; eauto.
Qed.

(** On an object each block ends with a [TypeError] and makes no reply. *)
Lemma handler_blocks_object TO props w :
  exists evs,
    Handler.invoice_parsedData TO (JObject props) w
      = (Handler.Raise Handler.TypeError, w ++ evs) /\
    Handler.dashboard_parsedData TO (JObject props) w
      = (Handler.Raise Handler.TypeError, w ++ evs) /\
    Handler.sent evs = [].
Proof.
  destruct (handler_blocks_other TO (JObject props) w eq_refl) as [-> ->].
  cbn [Handler.ToString]. destruct (props !! lit "toString").
  - exists []. rewrite app_nil_r. repeat split.
  - assert (JSON.parse (lit "[object Object]") = None) as ->
      by (vm_compute; reflexivity).
    eexists. repeat split.
Qed.

(** X14. A content that is an object is answered 500.  When the
    provider's answer carries an object where the text is expected, both
    [parseInvoiceFromText] and [getDashboardSummary] reply with status
    500 and a [TypeError]: the conversion of the object to a string does
    not parse, and an object has no method [match].  The placeholders of
    [getDashboardSummary] do not cover this failure. *)
Theorem object_content_is_answered_500
    (invoice : Type) (TO : json -> Handler.outcome (list N))
    (data_summary : list invoice -> Handler.outcome (list N))
    (data : json) (props : gmap (list N) json) :
  Handler.carries data (JObject props) ->
  (forall (b : json) (t : list N),
     Handler.Get b Handler.k_text = Some (JString t) -> t <> [] ->
     Handler.sent
       (snd (Handler.parseInvoiceFromText TO (Some b) (Handler.Done data) []))
     = [(500%nat,
         Handler.Failed "Failed to parse invoice data from text."
           Handler.TypeError)]) /\
  (forall (id : option json) (inv : invoice) (others : list invoice)
          (summary : list N),
     data_summary (inv :: others) = Handler.Done summary ->
     Handler.sent
       (snd (Handler.getDashboardSummary invoice TO data_summary
               (Handler.Done id) (Handler.Done (inv :: others))
               (Handler.Done data) []))
     = [(500%nat,
         Handler.Failed "Failed to generate dashboard insights."
           Handler.TypeError)]).
Proof.
  intros Hdata. pose proof (content_of_carried _ _ Hdata) as Hc.
  simpl in Hc. split.
  - intros b t Hb Ht.
    rewrite parseInvoiceFromText_run, (Get_not_nullish _ _ _ Hb),
      (optional_Get _ _ _ Hb).
    destruct t as [|x t]; [contradiction|]. cbn zeta. simpl negb. cbn iota.
    simpl Handler.ToString_value. rewrite Hc. cbn beta iota zeta.
    match goal with
    | |- context [Handler.invoice_parsedData TO (JObject props) ?w] =>
      destruct (handler_blocks_object TO props w) as (evs & -> & _ & Hs)
    end.
    unfold Handler.invoice_caught. simpl snd.
    cbn [Handler.sent]. rewrite ?sent_app, Hs. reflexivity.
  - intros id inv others summary Hsum.
    rewrite getDashboardSummary_run. cbn beta iota zeta.
    rewrite Hsum, Hc. cbn beta iota zeta.
    match goal with
    | |- context [Handler.dashboard_parsedData TO (JObject props) ?w] =>
      destruct (handler_blocks_object TO props w) as (evs & _ & -> & Hs)
    end.
    unfold Handler.dashboard_caught. simpl snd.
    cbn [Handler.sent]. rewrite ?sent_app, Hs. reflexivity.
Qed.

Lemma object_content_witness :
  Handler.sent
    (snd (Handler.getDashboardSummary unit (fun _ => Handler.Done [])
            (fun _ => Handler.Done (lit "Total invoices: 1"))
            (Handler.Done (Some (JString (lit "u1"))))
            (Handler.Done [tt])
            (Handler.Done
               (JObject {[ lit "choices" :=
                  JArray [JObject {[ lit "message" :=
                    JObject {[ lit "content" :=
                      JObject {[ lit "insights" := JArray [] ]} ]} ]}] ]}))
            []))
  = [(500%nat,
      Handler.Failed "Failed to generate dashboard insights." Handler.TypeError)].
Proof.
  destruct (object_content_is_answered_500 unit (fun _ => Handler.Done [])
              (fun _ => Handler.Done (lit "Total invoices: 1"))
              (JObject {[ lit "choices" :=
                  JArray [JObject {[ lit "message" :=
                    JObject {[ lit "content" :=
                      JObject {[ lit "insights" := JArray [] ]} ]} ]}] ]})
              {[ lit "insights" := JArray [] ]}) as [_ H].
  - eexists; eexists; eexists. repeat split; vm_compute; reflexivity.
  - apply (H (Some (JString (lit "u1"))) tt [] (lit "Total invoices: 1")).
    reflexivity.
Defined.

(** X15. [generateReminderEmail] passes the content on without parsing
    it, and an answer without content gives an empty reminder.  For a
    found invoice, every answer body other than [null] ends in the reply
    200 whose [reminderText] is the value of
    [data.choices?.[0]?.message?.content || '']: the empty string, or a
    truthy value the body holds at [choices[0].message.content].  So the
    text is empty when the body holds nothing truthy there (an error body
    of the provider, say), and is the value held there, of whatever type,
    when that is truthy.  When the body is [null] the reply is the 500
    with a [TypeError].  [JSON.parse] is never called: the trace is the
    lookup, the request and the reply. *)
Theorem reminder_text_is_the_content_or_empty
    (invoice : Type) (reminder_details : invoice -> Handler.outcome (list N))
    (b id : json) (inv : invoice) (details : list N) :
  Handler.Get b Handler.k_invoiceId = Some id ->
  Handler.truthy (Some id) = true ->
  reminder_details inv = Handler.Done details ->
  let run data :=
    Handler.generateReminderEmail invoice reminder_details (Some b)
      (Handler.Done (Some inv)) (Handler.Done data) [] in
  let asked :=
    [Handler.io_findById (Some id);
     Handler.io_fetch (Handler.reminder_request details)] in
  (forall data : json,
     data <> JNull ->
     exists v : json,
       Handler.content_or_empty data = Handler.Done v /\
       run data
       = (Handler.Done tt,
          asked ++ [Handler.io_reply 200 (Handler.reminder_body v)]) /\
       (v = JString [] \/
        (Handler.truthy (Some v) = true /\ Handler.carries data v))) /\
  (forall data : json,
     data <> JNull ->
     (forall v, Handler.carries data v -> Handler.truthy (Some v) = false) ->
     run data
     = (Handler.Done tt,
        asked ++ [Handler.io_reply 200 (Handler.reminder_body (JString []))])) /\
  (forall data v : json,
     Handler.carries data v -> Handler.truthy (Some v) = true ->
     run data
     = (Handler.Done tt,
        asked ++ [Handler.io_reply 200 (Handler.reminder_body v)])) /\
  (forall (data : json) (s : list N),
     Handler.carries data (JString s) ->
     run data
     = (Handler.Done tt,
        asked ++ [Handler.io_reply 200 (Handler.reminder_body (JString s))])) /\
  run JNull
  = (Handler.Done tt,
     asked ++ [Handler.io_console (Handler.generating_reminder Handler.TypeError);
               Handler.io_reply 500
                 (Handler.Failed "Failed to generate reminder email."
                    Handler.TypeError)]).
Proof.
  intros Hb Hid Hdet run asked. subst run asked.
  assert (forall data,
            Handler.generateReminderEmail invoice reminder_details (Some b)
              (Handler.Done (Some inv)) (Handler.Done data) []
            = match Handler.content_or_empty data with
              | Handler.Raise f =>
                Handler.reminder_caught f
                  [Handler.io_findById (Some id);
                   Handler.io_fetch (Handler.reminder_request details)]
              | Handler.Done v =>
                (Handler.Done tt,
                 [Handler.io_findById (Some id);
                  Handler.io_fetch (Handler.reminder_request details);
                  Handler.io_reply 200 (Handler.reminder_body v)])
              end) as Hrun.
  { intros data.
    rewrite generateReminderEmail_run, (Get_not_nullish _ _ _ Hb),
      (optional_Get _ _ _ Hb). cbn beta iota zeta.
    rewrite Hid. simpl negb. cbn iota.
    rewrite Hdet. destruct (Handler.content_or_empty data); reflexivity. }
  split; [|split; [|split; [|split]]].
  - intros data Hnull. rewrite Hrun.
    destruct (Handler.content_or_empty data) as [v|f] eqn:E.
    + exists v. split; [reflexivity|]. split; [reflexivity|].
      exact (content_found _ _ E).
    + apply content_fault in E as [-> _]. contradiction.
  - intros data Hnull Hnone. rewrite Hrun.
    destruct (Handler.content_or_empty data) as [v|f] eqn:E.
    + destruct (content_found _ _ E) as [-> | [Ht Hv]]; [reflexivity|].
      rewrite (Hnone v Hv) in Ht. discriminate.
    + apply content_fault in E as [-> _]. contradiction.
  - intros data v Hv Ht. rewrite Hrun, (content_of_carried _ _ Hv), Ht.
    reflexivity.
  - intros data s Hs. rewrite Hrun, (content_of_carried_string _ _ Hs).
    reflexivity.
  - rewrite Hrun. reflexivity.
Qed.

Lemma reminder_witness :
  Handler.sent
    (snd (Handler.generateReminderEmail unit (fun _ => Handler.Done (lit "Acme, #12"))
            (Some (JObject {[ lit "invoiceId" := JString (lit "64f0") ]}))
            (Handler.Done (Some tt))
            (Handler.Done
               (JObject {[ lit "error" := JString (lit "rate limited") ]})) []))
  = [(200%nat, Handler.reminder_body (JString []))].
Proof.
  destruct (reminder_text_is_the_content_or_empty unit
              (fun _ => Handler.Done (lit "Acme, #12"))
              (JObject {[ lit "invoiceId" := JString (lit "64f0") ]})
              (JString (lit "64f0")) tt (lit "Acme, #12"))
    as (_ & H & _).
  - reflexivity.
  - reflexivity.
  - reflexivity.
  - rewrite H; [reflexivity | discriminate |].
    intros v (c & f & m & Hc & _). vm_compute in Hc. discriminate.
Defined.

(** X16. The counts of the dashboard.  Every invoice is counted either
    as paid (its status is the string Paid) or as unpaid, never both and
    never neither, so the two counts add up to the total; and the recent
    invoices are the first five, or all when there are fewer. *)
Theorem paid_and_unpaid_partition
    (invoice : Type) (status : invoice -> option json)
    (invoices : list invoice) :
  (length (Handler.paidInvoices invoice status invoices)
     + length (Handler.unpaidInvoices invoice status invoices)
   = length invoices)%nat /\
  Handler.paidInvoices invoice status invoices
    ++ Handler.unpaidInvoices invoice status invoices ≡ₚ invoices /\
  (forall inv,
     inv ∈ Handler.paidInvoices invoice status invoices <->
     inv ∈ invoices /\ status inv = Some (JString (lit "Paid"))) /\
  (forall inv,
     inv ∈ Handler.unpaidInvoices invoice status invoices <->
     inv ∈ invoices /\ status inv <> Some (JString (lit "Paid"))) /\
  length (Handler.recent invoice invoices) = (5 `min` length invoices)%nat /\
  Handler.recent invoice invoices `prefix_of` invoices.
Proof.
  assert (forall inv,
            Handler.is_Paid (status inv) = true <->
            status inv = Some (JString (lit "Paid"))) as Hp.
  { intros inv. unfold Handler.is_Paid.
    destruct (status inv) as [[]|]; split; try discriminate;
      try (intros [=]; fail).
    - intros H. apply bool_decide_eq_true in H. congruence.
    - intros [= ->]. apply bool_decide_eq_true. reflexivity. }
  assert (Handler.paidInvoices invoice status invoices
            ++ Handler.unpaidInvoices invoice status invoices ≡ₚ invoices)
    as Hperm.
  { unfold Handler.paidInvoices, Handler.unpaidInvoices.
    induction invoices as [|inv l IH]; [reflexivity|].
    rewrite !filter_cons.
    destruct (decide (Handler.is_Paid (status inv) = true)) as [Hd|Hd].
    - rewrite decide_False by tauto. simpl. rewrite IH. reflexivity.
    - rewrite decide_True by tauto.
      rewrite <- Permutation_middle, IH. reflexivity. }
  split; [|split; [exact Hperm|split; [|split; [|split]]]].
  - rewrite <- (Permutation_length Hperm), length_app. reflexivity.
  - intros inv. unfold Handler.paidInvoices.
    rewrite list_elem_of_filter, Hp. tauto.
  - intros inv. unfold Handler.unpaidInvoices.
    rewrite list_elem_of_filter, Hp. tauto.
  - unfold Handler.recent. apply length_take.
  - unfold Handler.recent. apply prefix_take.
Qed.

(** X17. A content that is a string is always answered 200 by
    [getDashboardSummary].  With invoices and an answer that carries a
    string, the one reply has status 200, and its body is the value of
    the string when it parses, else the value of what the pattern matches
    when that parses, else the placeholder of line 194 (a match that does
    not parse) or of line 198 (no match). *)
Theorem dashboard_string_content_is_answered_200
    (invoice : Type) (TO : json -> Handler.outcome (list N))
    (data_summary : list invoice -> Handler.outcome (list N))
    (id : option json) (inv : invoice) (others : list invoice)
    (summary : list N) (data : json) (s : list N) :
  data_summary (inv :: others) = Handler.Done summary ->
  Handler.carries data (JString s) ->
  Handler.sent
    (snd (Handler.getDashboardSummary invoice TO data_summary
            (Handler.Done id) (Handler.Done (inv :: others))
            (Handler.Done data) []))
  = [(200%nat,
      Handler.Json
        match JSON.parse s with
        | Some v => v
        | None =>
          match RegExp.exec brace_pattern s with
          | Some m => default invalid_format_insights (JSON.parse m)
          | None => no_insights
          end
        end)].
Proof.
  intros Hsum Hdata.
  rewrite getDashboardSummary_run. cbn beta iota zeta.
  rewrite Hsum, (content_of_carried_string _ _ Hdata). cbn beta iota zeta.
  rewrite handler_dashboard_block_string.
  unfold events_of, result_of. rewrite dashboard_parsedData_run.
  destruct (JSON.parse s) as [v|]; [reflexivity|].
  destruct (RegExp.exec brace_pattern s) as [m0|]; [|reflexivity].
  destruct (JSON.parse m0); reflexivity.
Qed.

Lemma dashboard_string_witness :
  Handler.sent
    (snd (Handler.getDashboardSummary unit (fun _ => Handler.Done [])
            (fun _ => Handler.Done (lit "Total invoices: 1"))
            (Handler.Done (Some (JString (lit "u1"))))
            (Handler.Done [tt])
            (Handler.Done
               (JObject {[ lit "choices" :=
                  JArray [JObject {[ lit "message" :=
                    JObject {[ lit "content" := JString (lit "{'insights': [") ]} ]}] ]}))
            []))
  = [(200%nat, Handler.Json no_insights)].
Proof.
  rewrite (dashboard_string_content_is_answered_200 unit _ _ _ tt []
             (lit "Total invoices: 1") _ (lit "{'insights': [")).
  - vm_compute. reflexivity.
  - reflexivity.
  - eexists; eexists; eexists. repeat split; vm_compute; reflexivity.
Defined.
